(** * Card identification and catalogue

    A shallow embedding of [Vector_Database_Setup.ipynb]: the image
    normaliser [resize_with_padding], the batched ingestion loop
    [batch_upsert_embeddings], the key derivation [get_card_id] and the
    ledger reconciliation [add_card_data_to_csv], followed by the
    properties of each.

    Python values are modelled as the notebook uses them: [int] as [Z],
    [float] as IEEE 754 binary64 ([spec_float] with [prec = 53] and
    [emax = 1024]), [str] as [string] (the UTF-8 bytes of the text),
    [dict] as [gmap string _], [list] as [list].  A raised exception is the
    [Raise] branch of [result]. *)

From Stdlib Require Import ZArith List String Ascii Bool Lia.
From Stdlib Require Import Floats.SpecFloat.
From stdpp Require Import base option list gmap strings.

#[local] Set Warnings "-register-all".
#[local] Open Scope Z_scope.

(* ===================================================================== *)
(** * Part I: the program                                                *)
(* ===================================================================== *)

(** ** Python: exceptions, numbers, values *)
Module Py.

Inductive exn :=
| KeyError (key : string)
| IndexError
| ValueError
| TypeError
| AttributeError
| OverflowError
| ZeroDivisionError
| CvError                      (* cv2.error *)
| ServiceError (what : string)  (* a failed call to an external service *).

Inductive result (A : Type) :=
| Ok (a : A)
| Raise (e : exn).
Global Arguments Ok {A} a.
Global Arguments Raise {A} e.

Global Instance result_ret : MRet result := fun _ a => Ok a.
Global Instance result_bind : MBind result := fun _ _ f m =>
  match m with
  | Ok a => f a
  | Raise e => Raise e
  end.

Definition is_ok {A} (r : result A) : bool :=
  match r with Ok _ => true | Raise _ => false end.

Definition of_option {A} (e : exn) (o : option A) : result A :=
  match o with Some a => Ok a | None => Raise e end.

(** *** binary64 *)
Definition prec : Z := 53.
Definition emax : Z := 1024.
Definition float := spec_float.

Definition finite_or_overflow (f : float) : result float :=
  match f with
  | S754_infinity _ => Raise OverflowError
  | _ => Ok f
  end.

(** [float(n)] for an [int]: the nearest double, ties to even. *)
Definition float_of_int (n : Z) : result float :=
  finite_or_overflow (binary_normalize prec emax n 0 false).

(** [a / b] on two [int]s: the correctly rounded quotient. *)
Definition int_truediv (a b : Z) : result float :=
  if b =? 0 then Raise ZeroDivisionError
  else
    let s := xorb (a <? 0) (b <? 0) in
    match Z.abs a with
    | 0 => Ok (S754_zero s)
    | ma =>
        let '(q, e, l) := SFdiv_core_binary prec emax ma 0 (Z.abs b) 0 in
        finite_or_overflow (binary_round_aux prec emax s q e l)
    end.

Definition float_mul (x y : float) : float := SFmul prec emax x y.

(** [n * x] with [n] an [int] and [x] a [float]. *)
Definition int_mul_float (n : Z) (x : float) : result float :=
  fn ← float_of_int n; Ok (float_mul fn x).

(** [min(x, y)] on floats: the first argument unless the second is smaller. *)
Definition float_min (x y : float) : float :=
  if SFltb y x then y else x.

(** [int(x)] for a [float]: truncation towards zero. *)
Definition int_of_float (x : float) : result Z :=
  match x with
  | S754_zero _ => Ok 0
  | S754_nan => Raise ValueError
  | S754_infinity _ => Raise OverflowError
  | S754_finite s m e =>
      let a := match e with
               | Zneg p => Z.shiftr (Zpos m) (Zpos p)
               | _ => Z.shiftl (Zpos m) e
               end in
      Ok (if s then - a else a)
  end.


(** *** Values *)
Inductive pyval :=
| PNone
| PBool (b : bool)
| PInt (n : Z)
| PFloat (f : float)
| PStr (s : string)
| PList (l : list pyval)
| PDict (d : gmap string pyval).

(** [d[k]] and [d.get(k, default)] on a value that should be a dict. *)
Definition getitem (v : pyval) (k : string) : result pyval :=
  match v with
  | PDict d => of_option (KeyError k) (d !! k)
  | _ => Raise TypeError
  end.

Definition get (v : pyval) (k : string) (dflt : pyval) : result pyval :=
  match v with
  | PDict d => Ok (default dflt (d !! k))
  | _ => Raise AttributeError
  end.

(** *** Strings *)
Fixpoint str_of_digits (fuel : nat) (n : Z) (acc : string) : string :=
  match fuel with
  | O => acc
  | S fuel' =>
      let acc' := String (ascii_of_nat (48 + Z.to_nat (n mod 10))) acc in
      if n <? 10 then acc' else str_of_digits fuel' (n / 10) acc'
  end.

(** [str(n)] for an [int]. *)
Definition str_of_int (n : Z) : string :=
  let a := Z.abs n in
  let digits := str_of_digits (S (Z.to_nat (Z.log2 a))) a "" in
  if n <? 0 then String "-"%char digits else digits.

Definition is_prefix_drop : string → string → option string :=
  fix go (p s : string) : option string :=
    match p, s with
    | EmptyString, _ => Some s
    | String a p', String b s' => if Ascii.eqb a b then go p' s' else None
    | String _ _, EmptyString => None
    end.

(** [s.replace(old, new)] for a non-empty [old]: every non-overlapping
    occurrence, scanning from the left; [skip] counts the characters of an
    occurrence still to be passed over. *)
Fixpoint replace_from (old new : string) (skip : nat) (s : string) : string :=
  match s with
  | EmptyString => EmptyString
  | String c s' =>
      match skip with
      | S k => replace_from old new k s'
      | O =>
          if String.prefix old s
          then new +:+ replace_from old new (String.length old - 1) s'
          else String c (replace_from old new 0 s')
      end
  end.

Definition replace (s old new : string) : string := replace_from old new 0 s.

(** [s.split(sep)] for a one-character [sep]. *)
Fixpoint split (s : string) (sep : ascii) : list string :=
  match s with
  | EmptyString => [EmptyString]
  | String c s' =>
      if Ascii.eqb c sep then EmptyString :: split s' sep
      else match split s' sep with
           | h :: t => String c h :: t
           | [] => [String c EmptyString]
           end
  end.

(** [l[i]] for [i >= 0]. *)
Definition index {A} (l : list A) (i : nat) : result A :=
  of_option IndexError (l !! i).

End Py.
Import Py.

(** ** Image normaliser *)
Module Normalizer.

(** One pixel: the three 8-bit samples of an OpenCV image. *)
Definition pixel : Type := Z * Z * Z.
Definition white : pixel := (255, 255, 255).

(** A [numpy] array of shape (H, W, 3): H rows of W pixels. *)
Abbreviation image := (list (list pixel)).

Definition height (img : image) : Z := Z.of_nat (length img).
Definition width (img : image) : Z :=
  match img with
  | [] => 0
  | r :: _ => Z.of_nat (length r)
  end.

Definition has_shape (img : image) (h w : nat) : Prop :=
  length img = h ∧ Forall (λ r, length r = w) img.

(** [img[i][j]]. *)
Definition pixel_at (img : image) (i j : nat) : option pixel :=
  img !! i ≫= (λ r, r !! j).

(** [cv2.resize(img, (w, h))]: OpenCV asserts that the source and the
    requested size are not empty, then samples the source; the sampling
    itself ([interp], bilinear by default) is OpenCV's. *)
Definition cv2_resize (interp : image → nat → nat → image)
    (img : image) (dsize : Z * Z) : result image :=
  let '(w, h) := dsize in
  if (height img <=? 0) || (width img <=? 0) then Raise CvError
  else if (w <=? 0) || (h <=? 0) then Raise CvError
  else Ok (interp img (Z.to_nat w) (Z.to_nat h)).

(** [np.full((n, n, 3), 255, dtype=np.uint8)]. *)
Definition np_full_white (n : Z) : result image :=
  if n <? 0 then Raise ValueError
  else Ok (replicate (Z.to_nat n) (replicate (Z.to_nat n) white)).

(** The bounds Python gives a slice [start:stop] of a sequence of [len]
    elements: negative indices count from the end, both are clamped. *)
Definition slice_bounds (start stop len : Z) : nat * nat :=
  let norm i := if i <? 0 then Z.max (i + len) 0 else Z.min i len in
  let a := norm start in
  (Z.to_nat a, Z.to_nat (Z.max (norm stop - a) 0)).

(** Broadcasting one axis of the assigned value to [n] entries. *)
Definition broadcast {A} (l : list A) (n : nat) : result (list A) :=
  if decide (length l = n) then Ok l
  else match l with
       | [x] => Ok (replicate n x)
       | _ => Raise ValueError
       end.

Definition paste_row (dst src : list pixel) (col : nat) : list pixel :=
  take col dst ++ src ++ drop (col + length src) dst.

(** [canvas[top:top+h, col:col+w, :] = value] once [value] has the
    shape (h, w, 3) of the window. *)
Definition paste (canvas value : image) (top col : nat) : image :=
  take top canvas
    ++ zip_with (λ dst src, paste_row dst src col)
         (take (length value) (drop top canvas)) value
    ++ drop (top + length value) canvas.

(** [canvas[r0:r1, c0:c1, :] = value]. *)
Definition setitem_window (canvas : image) (r0 r1 c0 c1 : Z)
    (value : image) : result image :=
  let '(top, h) := slice_bounds r0 r1 (height canvas) in
  let '(col, w) := slice_bounds c0 c1 (width canvas) in
  rows ← broadcast value h;
  rows' ← (fix each (rs : image) : result image :=
             match rs with
             | [] => Ok []
             | r :: rs' => r' ← broadcast r w; t ← each rs'; Ok (r' :: t)
             end) rows;
  Ok (paste canvas rows' top col).

(** [int(n * scale)]. *)
Definition scaled (n : Z) (scale : float) : result Z :=
  x ← int_mul_float n scale; int_of_float x.

Definition resize_with_padding (interp : image → nat → nat → image)
    (img : image) (target_size : Z) : result image :=
  let h := height img in
  let w := width img in
  sh ← int_truediv target_size h;
  sw ← int_truediv target_size w;
  let scale := float_min sh sw in
  new_w ← scaled w scale;
  new_h ← scaled h scale;
  resized_img ← cv2_resize interp img (new_w, new_h);
  padded_img ← np_full_white target_size;
  let pad_w := (target_size - new_w) `div` 2 in
  let pad_h := (target_size - new_h) `div` 2 in
  setitem_window padded_img pad_h (pad_h + new_h) pad_w (pad_w + new_w)
    resized_img.

End Normalizer.
Import Normalizer.

(** ** Batch ingestion *)
Module Ingestion.

(** [{"id": img_name, "values": embedding.tolist()}] *)
Record vector := { vec_id : string; vec_values : list float }.

(** One call [index.upsert(vectors=..., namespace=...)]. *)
Record upsert_call := { call_vectors : list vector; call_namespace : string }.

(** The lines the function prints. *)
Inductive line :=
| Upserted_batch (batch_size : Z)
| Error_processing (img_name : string) (e : exn)
| Upserted_final (n : nat).

(** The collaborators of a run: the directory listing, the image decoder
    ([cv2.imread] gives [None] for a file it cannot decode), OpenCV's
    sampling, the embedding model and the vector index, whose answer to a
    call may depend on the calls made before it. *)
Record world := {
  listdir : string → result (list string);
  imread : string → option image;
  interp : image → nat → nat → image;
  predict : image → result (list float);
  index_upsert : list upsert_call → upsert_call → result unit
}.

(** [os.path.join(a, b)] *)
Definition os_path_join (a b : string) : string :=
  match is_prefix_drop "/" b with
  | Some _ => b
  | None =>
      if String.eqb a "" then b
      else if String.eqb (substring (String.length a - 1) 1 a) "/" then a +:+ b
      else a +:+ "/" +:+ b
  end.

Definition preprocess_image_with_padding (W : world) (img_path : string)
    (target_size : Z * Z) : result image :=
  match imread W img_path with
  | None => Raise AttributeError      (* [img.shape] on [None] *)
  | Some img => resize_with_padding (interp W) img (fst target_size)
  end.

Definition embed_image (W : world) (img_path : string) : result (list float) :=
  img_array ← preprocess_image_with_padding W img_path (224, 224);
  predict W img_array.

Record state := {
  batch : list vector;
  calls : list upsert_call;   (* every call made to the index, in order *)
  stdout : list line
}.

(** The body of the [for] loop, with its [try]/[except]. *)
Definition process_image (W : world) (image_dir : string) (batch_size : Z)
    (namespace : string) (st : state) (img_name : string) : state :=
  let img_path := os_path_join image_dir img_name in
  match embed_image W img_path with
  | Raise e =>
      {| batch := batch st; calls := calls st;
         stdout := stdout st ++ [Error_processing img_name e] |}
  | Ok embedding =>
      let batch1 := batch st ++ [{| vec_id := img_name; vec_values := embedding |}] in
      if batch_size <=? Z.of_nat (length batch1) then
        let c := {| call_vectors := batch1; call_namespace := namespace |} in
        match index_upsert W (calls st) c with
        | Ok _ =>
            {| batch := []; calls := calls st ++ [c];
               stdout := stdout st ++ [Upserted_batch batch_size] |}
        | Raise e =>
            {| batch := batch1; calls := calls st ++ [c];
               stdout := stdout st ++ [Error_processing img_name e] |}
        end
      else
        {| batch := batch1; calls := calls st; stdout := stdout st |}
  end.

(** The last flush, outside the [try]. *)
Definition flush_remaining (W : world) (namespace : string) (st : state)
    : state * result unit :=
  match batch st with
  | [] => (st, Ok ())
  | _ :: _ =>
      let c := {| call_vectors := batch st; call_namespace := namespace |} in
      match index_upsert W (calls st) c with
      | Ok _ =>
          ({| batch := batch st; calls := calls st ++ [c];
              stdout := stdout st ++ [Upserted_final (length (batch st))] |}, Ok ())
      | Raise e =>
          ({| batch := batch st; calls := calls st ++ [c]; stdout := stdout st |},
           Raise e)
      end
  end.

Definition initial : state := {| batch := []; calls := []; stdout := [] |}.

Definition ingest_entries (W : world) (image_dir : string) (batch_size : Z)
    (namespace : string) (entries : list string) : state * result unit :=
  flush_remaining W namespace
    (foldl (process_image W image_dir batch_size namespace) initial entries).

Definition batch_upsert_embeddings (W : world) (image_dir : string)
    (batch_size : Z) (namespace : string) : state * result unit :=
  match listdir W image_dir with
  | Raise e => (initial, Raise e)
  | Ok entries => ingest_entries W image_dir batch_size namespace entries
  end.

End Ingestion.
Import Ingestion.

(** ** Identification: the key of the best match *)
Module Query.

Record scored_vector := { id : string; score : float }.
Record query_response := { matches : list scored_vector }.

Definition get_card_id (query_results : query_response) : result string :=
  top ← index (matches query_results) 0;
  index (split (id top) ".") 0.

(** [get_card_details]: the JSON body of the Scryfall answer; [http_json]
    is the network ([requests.get(url).json()]). *)
Definition get_card_details (http_json : string → result pyval)
    (card_id : string) : result pyval :=
  http_json ("https://api.scryfall.com/cards/" +:+ card_id).

End Query.
Import Query.

(** ** Catalogue ledger *)
Module Catalog.

(** What the notebook takes from the Python runtime without this model
    looking inside: the number parsers behind [float(s)] and [int(s)],
    [None] when they raise [ValueError].  [float('')] raises. *)
Class Runtime := {
  float_of_str : string → option float;
  int_of_str : string → option Z;
  float_of_str_empty : float_of_str "" = None
}.

Definition fieldnames : list string :=
  ["id"; "name"; "mana_cost"; "cmc"; "type_line"; "colors"; "color_identity";
   "set_name"; "rarity"; "full_art"; "price"; "number_owned"; "total_value"].

(** The ledger file as [csv.DictReader] shows it: one dict of cell texts
    per data row, keyed by the header. The file system maps a path to the
    table stored there. *)
Abbreviation csv_table := (list (gmap string string)).
Abbreviation filesystem := (gmap string (list (gmap string string))).

(** The fields pulled out of the card data. *)
Record card_fields := {
  cf_id : pyval;
  cf_name : pyval;
  cf_mana_cost : pyval;
  cf_cmc : pyval;
  cf_type_line : string;
  cf_colors : pyval;
  cf_color_identity : pyval;
  cf_set_name : pyval;
  cf_rarity : pyval;
  cf_full_art : pyval;
  cf_price : pyval
}.

(** [v.replace('—', '-')] *)
Definition replace_em_dash (v : pyval) : result string :=
  match v with
  | PStr s => Ok (replace s "—" "-")
  | _ => Raise AttributeError
  end.

Definition extract_fields (card_data : pyval) : result card_fields :=
  id ← getitem card_data "id";
  name ← getitem card_data "name";
  mana_cost ← get card_data "mana_cost" (PStr "");
  cmc ← get card_data "cmc" (PInt 0);
  type_line ← get card_data "type_line" (PStr "") ≫= replace_em_dash;
  colors ← get card_data "colors" (PList []);
  color_identity ← get card_data "color_identity" (PList []);
  set_name ← get card_data "set_name" (PStr "");
  rarity ← get card_data "rarity" (PStr "");
  full_art ← get card_data "full_art" (PBool false);
  prices ← get card_data "prices" (PDict ∅);
  price ← get prices "usd" (PStr "");
  Ok {| cf_id := id; cf_name := name; cf_mana_cost := mana_cost;
        cf_cmc := cmc; cf_type_line := type_line; cf_colors := colors;
        cf_color_identity := color_identity; cf_set_name := set_name;
        cf_rarity := rarity; cf_full_art := full_art; cf_price := price |}.

Section WithRuntime.
Context {RT : Runtime}.

(** [float(v)] *)
Definition py_float (v : pyval) : result float :=
  match v with
  | PStr s => of_option ValueError (float_of_str s)
  | PInt n => float_of_int n
  | PFloat f => Ok f
  | PBool b => float_of_int (if b then 1 else 0)
  | _ => Raise TypeError
  end.

(** [int(v)] *)
Definition py_int (v : pyval) : result Z :=
  match v with
  | PStr s => of_option ValueError (int_of_str s)
  | PInt n => Ok n
  | PFloat f => int_of_float f
  | PBool b => Ok (if b then 1 else 0)
  | _ => Raise TypeError
  end.

(** A row as [DictReader] yields it: every cell is a [str]. *)
Definition as_read (row : gmap string string) : gmap string pyval :=
  PStr <$> row.

(** [cell == v] for a cell read from the file, which is a [str]. *)
Definition cell_eq (cell : string) (v : pyval) : bool :=
  match v with
  | PStr s => String.eqb cell s
  | _ => false
  end.

(** The [for row in rows] loop: the first row whose id is that of the
    card is updated in place and the loop stops; [None] when no row
    matches ([row_exists] stays false). *)
Fixpoint update_existing (rows : csv_table) (id price : pyval)
    : result (option (list (gmap string pyval))) :=
  match rows with
  | [] => Ok None
  | row :: rest =>
      row_id ← of_option (KeyError "id") (row !! "id");
      if cell_eq row_id id then
        owned ← of_option (KeyError "number_owned") (row !! "number_owned");
        n ← py_int (PStr owned);
        let number_owned := n + 1 in
        p ← py_float price;
        total_value ← int_mul_float number_owned p;
        Ok (Some (<["total_value" := PFloat total_value]>
                    (<["number_owned" := PInt number_owned]> (as_read row))
                  :: map as_read rest))
      else
        r ← update_existing rest id price;
        Ok (option_map (cons (as_read row)) r)
  end.

Definition new_row (c : card_fields) : result (gmap string pyval) :=
  total_value ← py_float (cf_price c);
  Ok (list_to_map
        [("id", cf_id c); ("name", cf_name c); ("mana_cost", cf_mana_cost c);
         ("cmc", cf_cmc c); ("type_line", PStr (cf_type_line c));
         ("colors", cf_colors c); ("color_identity", cf_color_identity c);
         ("set_name", cf_set_name c); ("rarity", cf_rarity c);
         ("full_art", cf_full_art c); ("price", cf_price c);
         ("number_owned", PInt 1); ("total_value", PFloat total_value)]).

(** From the card data to the rows handed to the writer. *)
Definition reconcile (rows : csv_table) (card_data : pyval)
    : result (list (gmap string pyval)) :=
  c ← extract_fields card_data;
  updated ← update_existing rows (cf_id c) (cf_price c);
  match updated with
  | Some rows' => Ok rows'
  | None => r ← new_row c; Ok (map as_read rows ++ [r])
  end.

(** [repr] is the text [str] gives a float, a list or a dict. *)
Variable repr : pyval → string.

(** The text the csv writer puts in a cell. *)
Definition cell_text (v : pyval) : string :=
  match v with
  | PNone => ""
  | PStr s => s
  | PInt n => str_of_int n
  | PBool b => if b then "True" else "False"
  | _ => repr v
  end.

(** [DictWriter._dict_to_list]: a key outside [fieldnames] raises, a
    missing one is written as the empty string. *)
Definition dict_to_list (row : gmap string pyval) : result (gmap string string) :=
  if decide (dom row ⊆ list_to_set fieldnames) then
    Ok (list_to_map
          ((λ k, (k, cell_text (default (PStr "") (row !! k)))) <$> fieldnames))
  else Raise ValueError.

(** [writer.writerows(rows)]: the lines written before a row raises
    stay in the file. *)
Fixpoint writerows (rows : list (gmap string pyval)) : csv_table * result unit :=
  match rows with
  | [] => ([], Ok ())
  | row :: rest =>
      match dict_to_list row with
      | Raise e => ([], Raise e)
      | Ok cells => let '(written, r) := writerows rest in (cells :: written, r)
      end
  end.

(** [rows = list(csv.DictReader(file))], or [[]] without a file. *)
Definition read_rows (fs : filesystem) (file_path : string) : csv_table :=
  default [] (fs !! file_path).

Definition add_card_data_to_csv (http_json : string → result pyval)
    (fs : filesystem) (file_path top_result_id : string)
    : filesystem * result unit :=
  let rows := read_rows fs file_path in
  match get_card_details http_json top_result_id ≫= reconcile rows with
  | Raise e => (fs, Raise e)
  | Ok rows' =>
      let '(written, r) := writerows rows' in
      (<[file_path := written]> fs, r)
  end.

End WithRuntime.

(** *** A runtime for plain decimal literals

    [float] and [int] restricted to the literals the ledger and the price
    service produce: digits with at most one point, and an optional minus
    sign for integers.  The float is the double nearest to the decimal. *)
Definition digit_of (c : ascii) : option Z :=
  let n := Z.of_nat (nat_of_ascii c) in
  if (48 <=? n) && (n <=? 57) then Some (n - 48) else None.

Fixpoint digits_value (s : string) (acc : Z) : option Z :=
  match s with
  | EmptyString => Some acc
  | String c r => d ← digit_of c; digits_value r (10 * acc + d)
  end.

Definition decimal_int (s : string) : option Z :=
  match s with
  | EmptyString => None
  | String "-" EmptyString => None
  | String "-" r => Z.opp <$> digits_value r 0
  | _ => digits_value s 0
  end.

Definition to_option {A} (r : result A) : option A :=
  match r with Ok a => Some a | Raise _ => None end.

Definition decimal_float (s : string) : option float :=
  match split s "." with
  | [a] =>
      if String.eqb a "" then None
      else m ← digits_value a 0; to_option (float_of_int m)
  | [a; b] =>
      if String.eqb (a +:+ b) "" then None
      else m ← digits_value (a +:+ b) 0;
           to_option (int_truediv m (10 ^ Z.of_nat (String.length b)))
  | _ => None
  end.

Definition decimal_runtime : Runtime :=
  {| float_of_str := decimal_float;
     int_of_str := decimal_int;
     float_of_str_empty := eq_refl |}.

(** A rendering of floats, lists and dicts that tells the three apart and
    nothing more; the properties below hold for every rendering. *)
Definition kind_repr (v : pyval) : string :=
  match v with
  | PFloat _ => "<float>"
  | PList _ => "<list>"
  | PDict _ => "<dict>"
  | _ => ""
  end.

End Catalog.
Import Catalog.

(** ** Notions used in the properties *)

(** The key as the specification describes it: the file name with its
    extension removed, the extension being what follows the last dot. *)
Definition spec_strip_extension (name : string) : string :=
  match split name "." with
  | [] | [_] => name
  | parts => String.concat "." (removelast parts)
  end.

(** The vectors of all the calls made to the index, in order. *)
Definition upserted (cs : list upsert_call) : list vector :=
  concat (map call_vectors cs).

(** Whether a call carries the vector of an entry, and in how many calls
    it was sent. *)
Definition sent_in (name : string) (c : upsert_call) : bool :=
  existsb (String.eqb name) (map vec_id (call_vectors c)).

Definition times_sent (name : string) (cs : list upsert_call) : nat :=
  length (List.filter (sent_in name) cs).

(** Two states that differ in what was printed only. *)
Definition same_work (s t : state) : Prop :=
  batch s = batch t ∧ calls s = calls t.

(** The number of vectors in each call. *)
Definition sizes (cs : list upsert_call) : list Z :=
  map (λ c, Z.of_nat (length (call_vectors c))) cs.


(** The vectors of the entries that embed, in listing order. *)
Definition embedded (W : world) (image_dir : string) (entries : list string)
    : list vector :=
  flat_map (λ x, match embed_image W (os_path_join image_dir x) with
                 | Ok v => [{| vec_id := x; vec_values := v |}]
                 | Raise _ => []
                 end) entries.

(** A world whose directory listing is replaced. *)
Definition with_listing (W : world) (entries : list string) : world :=
  {| listdir := λ _, Ok entries; imread := imread W; interp := interp W;
     predict := predict W; index_upsert := index_upsert W |}.


(** The value of a field of the card data as the new row takes it. *)
Definition card_field (card : gmap string pyval) (dflt : pyval) (key : string)
    : pyval :=
  default dflt (card !! key).

(** A row of the file once read and written back: the thirteen columns,
    an empty cell where the row had none. *)
Definition rewritten (row : gmap string string) : gmap string string :=
  list_to_map ((λ k, (k, default "" (row !! k))) <$> fieldnames).

(** The dollar price in the card data. *)
Definition card_price (card : gmap string pyval) : pyval :=
  match card_field card (PDict ∅) "prices" with
  | PDict d => card_field d (PStr "") "usd"
  | _ => PNone
  end.

(** The cells of the row of a card: the descriptive fields as the card data
    give them (the default of the field when the card has none), with the
    given type line, number owned and total value. *)
Definition card_cells (repr : pyval → string) (card : gmap string pyval)
    (type_line owned : string) (total : float) : gmap string string :=
  list_to_map
    [("id", cell_text repr (card_field card PNone "id"));
     ("name", cell_text repr (card_field card PNone "name"));
     ("mana_cost", cell_text repr (card_field card (PStr "") "mana_cost"));
     ("cmc", cell_text repr (card_field card (PInt 0) "cmc"));
     ("type_line", type_line);
     ("colors", cell_text repr (card_field card (PList []) "colors"));
     ("color_identity", cell_text repr (card_field card (PList []) "color_identity"));
     ("set_name", cell_text repr (card_field card (PStr "") "set_name"));
     ("rarity", cell_text repr (card_field card (PStr "") "rarity"));
     ("full_art", cell_text repr (card_field card (PBool false) "full_art"));
     ("price", cell_text repr (card_price card));
     ("number_owned", owned);
     ("total_value", repr (PFloat total))].

(** A field of row [i] of a reconciled table. *)
Definition field_of (rows : result (list (gmap string pyval))) (i : nat)
    (key : string) : option pyval :=
  match rows with
  | Ok rs => rs !! i ≫= (λ r, r !! key)
  | Raise _ => None
  end.

(** ** Sample ledger and cards *)

(** A ledger holding one copy of card ["c1"], bought at 1.00, and the card
    data of the same card now priced 2.00. *)
Definition stale_ledger : list (gmap string string) :=
  [ list_to_map
      [("id", "c1"); ("name", "Shuko"); ("mana_cost", "{1}"); ("cmc", "1.0");
       ("type_line", "Artifact - Equipment"); ("colors", "[]");
       ("color_identity", "[]"); ("set_name", "Betrayers of Kamigawa");
       ("rarity", "uncommon"); ("full_art", "False"); ("price", "1.00");
       ("number_owned", "1"); ("total_value", "1.0")] ].

Definition repriced : gmap string pyval :=
  list_to_map
    [("id", PStr "c1"); ("name", PStr "Shuko");
     ("type_line", PStr "Artifact — Equipment");
     ("prices", PDict (list_to_map [("usd", PStr "2.00")]))].

Definition repriced_card : pyval := PDict repriced.


(** A ledger that holds another card only. *)
Definition other_ledger : list (gmap string string) :=
  map (insert "id" "c0") stale_ledger.


Definition mispriced_card : pyval :=
  PDict (list_to_map
           [("id", PStr "c1"); ("name", PStr "Shuko");
            ("prices", PDict (list_to_map [("usd", PStr "N/A")]))]).

(** A metadata service that knows the one card, and a disk that holds the
    ledger. *)
Definition service (card_data : pyval) (url : string) : result pyval :=
  if String.eqb url "https://api.scryfall.com/cards/c1" then Ok card_data
  else Raise (ServiceError "not found").

Definition catalog_path : string := "Output/mtg_catalog.csv".

Definition disk : gmap string (list (gmap string string)) :=
  {[ catalog_path := stale_ledger ]}.

(** ** Sample collaborators

    Small worlds on which the properties are exercised: a decoder that
    reads every file as one black pixel, nearest-neighbour sampling, a
    model that answers with a one-dimensional embedding. *)
Definition black : pixel := (0, 0, 0).

Definition nearest_neighbour (img : image) (w h : nat) : image :=
  let rows := length img in
  let cols := length (hd [] img) in
  map (λ i, map (λ j, default black
                        (pixel_at img (i * rows / h)%nat (j * cols / w)%nat))
              (seq 0 w))
      (seq 0 h).

Definition sample_world (entries : list string) : world :=
  {| listdir := λ _, Ok entries;
     imread := λ path, if String.eqb path "cards/bad.jpg" then None
                       else Some [[black]];
     interp := nearest_neighbour;
     predict := λ _, Ok [S754_zero false];
     index_upsert := λ _ _, Ok () |}.

(** The same world with an index that refuses the first call it gets. *)
Definition flaky_world (entries : list string) : world :=
  {| listdir := listdir (sample_world entries);
     imread := imread (sample_world entries);
     interp := nearest_neighbour;
     predict := predict (sample_world entries);
     index_upsert := λ history _,
       match history with
       | [] => Raise (ServiceError "index unavailable")
       | _ :: _ => Ok ()
       end |}.

(** ** Notions used in the further properties *)

(** The error lines of the output, and the line each entry that does not
    embed gets, in listing order. *)
Definition is_error (l : line) : bool :=
  match l with
  | Error_processing _ _ => true
  | _ => false
  end.

Definition failures (W : world) (image_dir : string) (entries : list string)
    : list line :=
  flat_map (λ x, match embed_image W (os_path_join image_dir x) with
                 | Ok _ => []
                 | Raise e => [Error_processing x e]
                 end) entries.

(** A vector is the embedding of the file it names. *)
Definition genuine (W : world) (image_dir : string) (v : vector) : Prop :=
  embed_image W (os_path_join image_dir (vec_id v)) = Ok (vec_values v).

(** A vector is genuine and names one of the given entries; a call is
    sound when it is not empty, carries the namespace, and all its vectors
    are such. *)
Definition listed (W : world) (image_dir : string) (all : list string)
    (v : vector) : Prop :=
  genuine W image_dir v ∧ vec_id v ∈ all.

Definition sound_call (W : world) (image_dir namespace : string)
    (all : list string) (c : upsert_call) : Prop :=
  call_vectors c ≠ [] ∧ call_namespace c = namespace
  ∧ Forall (listed W image_dir all) (call_vectors c).

(** A vector is in a call made, or waits in the batch. *)
Definition held (st : state) (v : vector) : Prop :=
  v ∈ upserted (calls st) ∨ v ∈ batch st.

(** A text without a dot. *)
Definition dotless (s : string) : Prop :=
  Forall (λ c, c ≠ "."%char) (list_ascii_of_string s).

(** A text without the byte that starts an em dash in UTF-8. *)
Definition em_dash_free (s : string) : Prop :=
  Forall (λ c, c ≠ ascii_of_nat 226) (list_ascii_of_string s).

(** The cells the writer makes of a row whose keys are all columns. *)
Definition written_cells (repr : pyval → string) (row : gmap string pyval)
    : gmap string string :=
  list_to_map ((λ k, (k, cell_text repr (default (PStr "") (row !! k)))) <$> fieldnames).

(** The identifiers of a table, row by row. *)
Definition ids (table : list (gmap string string)) : list string :=
  map (λ r, default "" (r !! "id")) table.

(** A ledger the writer accepts: every row has an id and no key outside the
    thirteen columns. *)
Definition well_formed (table : list (gmap string string)) : Prop :=
  Forall (λ r, is_Some (r !! "id") ∧ dom r ⊆ list_to_set fieldnames) table.

(** [k] calls in a row, stopping at the first that raises. *)
Fixpoint add_card_data_to_csv_times `{RT : Runtime} (repr : pyval → string)
    (http_json : string → result pyval)
    (fs : gmap string (list (gmap string string)))
    (file_path top_result_id : string) (k : nat)
    : gmap string (list (gmap string string)) * result unit :=
  match k with
  | O => (fs, Ok ())
  | S k' =>
      let '(fs', r) :=
        add_card_data_to_csv_times repr http_json fs file_path top_result_id k' in
      match r with
      | Ok _ => add_card_data_to_csv repr http_json fs' file_path top_result_id
      | Raise e => (fs', Raise e)
      end
  end.

(** The setup cell: the index is created, with the dimension of the
    model's output, unless the service already lists its name. *)
Record index_config := {
  dimension : Z;
  metric : string;
  cloud : string;
  region : string
}.

Definition index_name : string := "mtg-cards-index-efficientnet".

Definition ensure_index (service : gmap string index_config)
    : gmap string index_config :=
  if decide (index_name ∈ dom service) then service
  else <[index_name := {| dimension := 1280; metric := "cosine";
                          cloud := "aws"; region := "us-east-1" |}]> service.

(** ** More sample data *)

(** A second card, a ledger with a column of the owner's own, and a
    service that knows both cards. *)
Definition second : gmap string pyval :=
  list_to_map
    [("id", PStr "c2"); ("name", PStr "Island");
     ("type_line", PStr "Basic Land — Island");
     ("prices", PDict (list_to_map [("usd", PStr "0.25")]))].

Definition annotated_ledger : list (gmap string string) :=
  map (insert "notes" "signed") stale_ledger.

Definition two_card_service (url : string) : result pyval :=
  if String.eqb url "https://api.scryfall.com/cards/c1" then Ok (PDict repriced)
  else if String.eqb url "https://api.scryfall.com/cards/c2" then Ok (PDict second)
  else Raise (ServiceError "not found").

(** ** Sample images *)

(** A strip one pixel wide and 1000 high, a strip two wide and one high,
    and an image that already has the default size. *)
Definition tall_strip : image := replicate 1000 [black].
Definition short_strip : image := [[black; white]].
Definition full_size : image := replicate 224 (replicate 224 black).

(* ===================================================================== *)
(** * Part II: properties                                                *)
(* ===================================================================== *)

(** ** Key derivation *)

Lemma split_nonempty s sep : split s sep ≠ [].
Proof.
  induction s as [|c s IH]; simpl; [done|].
  destruct (Ascii.eqb c sep); [done|]. by destruct (split s sep).
Qed.

(** The key is the part of the name before its first dot: it never raises
    when there is a match, and the key holds no dot. *)
Lemma get_card_id_first_dot (name : string) (sc : float) rest :
  ∃ key others,
    get_card_id {| matches := {| id := name; score := sc |} :: rest |} = Ok key
    ∧ split name "." = key :: others.
Proof.
  unfold get_card_id; simpl.
  destruct (split name ".") as [|k t] eqn:E; [by apply split_nonempty in E|].
  by exists k, t.
Qed.

(** A name with one dot loses its extension, as the specification asks. *)
Lemma get_card_id_one_dot (name base ext : string) (sc : float) rest :
  split name "." = [base; ext] →
  get_card_id {| matches := {| id := name; score := sc |} :: rest |} = Ok base
  ∧ spec_strip_extension name = base.
Proof.
  intros H. unfold get_card_id, spec_strip_extension. simpl. rewrite H. simpl.
  split; done.
Qed.

(** C8: on the identifier ["a.b.jpg"] the code derives the key ["a"], where
    the name without its extension is ["a.b"]. *)
Theorem get_card_id_dotted_name :
  get_card_id {| matches := [{| id := "a.b.jpg"; score := S754_zero false |}] |}
    = Ok "a"
  ∧ spec_strip_extension "a.b.jpg" = "a.b".
Proof. split; reflexivity. Qed.

(** ** Batch ingestion *)

Section IngestionFacts.
Variable W : world.
Variables (image_dir : string) (batch_size : Z) (namespace : string).

#[local] Abbreviation step := (process_image W image_dir batch_size namespace).
#[local] Abbreviation run := (foldl (process_image W image_dir batch_size namespace)).

Lemma process_image_raise st x e :
  embed_image W (os_path_join image_dir x) = Raise e →
  step st x = {| batch := batch st; calls := calls st;
                 stdout := stdout st ++ [Error_processing x e] |}.
Proof. intros H. unfold process_image. by rewrite H. Qed.

Lemma process_image_same_work s t x :
  same_work s t → same_work (step s x) (step t x).
Proof.
  intros [Hb Hc]. unfold process_image, same_work.
  destruct (embed_image W _) as [v|e]; simpl; [|done].
  rewrite Hb, Hc.
  destruct (_ <=? _); simpl; [|done].
  by destruct (index_upsert W _ _).
Qed.

Lemma run_same_work l s t : same_work s t → same_work (run s l) (run t l).
Proof.
  revert s t. induction l as [|x l IH]; intros s t H; simpl; [done|].
  apply IH, process_image_same_work, H.
Qed.

Lemma process_image_stdout st x : ∃ more, stdout (step st x) = stdout st ++ more.
Proof.
  unfold process_image.
  destruct (embed_image W _) as [v|e]; simpl; [|by eexists].
  destruct (_ <=? _); simpl; [|by exists []; rewrite app_nil_r].
  destruct (index_upsert W _ _); simpl; by eexists.
Qed.

Lemma run_stdout l st : ∃ more, stdout (run st l) = stdout st ++ more.
Proof.
  revert st. induction l as [|x l IH]; intros st; simpl.
  - exists []. by rewrite app_nil_r.
  - destruct (IH (step st x)) as [m1 H1].
    destruct (process_image_stdout st x) as [m2 H2].
    exists (m2 ++ m1). rewrite H1, H2. by rewrite app_assoc.
Qed.

Lemma flush_remaining_same_work s t :
  same_work s t →
  same_work (flush_remaining W namespace s).1 (flush_remaining W namespace t).1
  ∧ (flush_remaining W namespace s).2 = (flush_remaining W namespace t).2.
Proof.
  destruct s as [b c o], t as [b' c' o']. intros [Hb Hc]. simpl in Hb, Hc.
  subst b' c'. unfold flush_remaining, same_work. simpl.
  destruct b; simpl; [done|].
  by destruct (index_upsert W _ _).
Qed.

Lemma flush_remaining_stdout st :
  ∃ more, stdout (flush_remaining W namespace st).1 = stdout st ++ more.
Proof.
  unfold flush_remaining. destruct (batch st); simpl.
  - exists []. by rewrite app_nil_r.
  - destruct (index_upsert W _ _); simpl; [by eexists|].
    exists []. by rewrite app_nil_r.
Qed.

(** A failing entry leaves the batch and the calls as they were, and one
    line about it in the output. *)
Lemma ingest_entries_skip l1 x l2 e :
  embed_image W (os_path_join image_dir x) = Raise e →
  let with_x := ingest_entries W image_dir batch_size namespace (l1 ++ x :: l2) in
  let without := ingest_entries W image_dir batch_size namespace (l1 ++ l2) in
  same_work with_x.1 without.1
  ∧ with_x.2 = without.2
  ∧ Error_processing x e ∈ stdout with_x.1.
Proof.
  intros He. cbv zeta. unfold ingest_entries.
  rewrite !foldl_app. simpl foldl.
  set (s1 := run initial l1).
  assert (Hsw : same_work (run (step s1 x) l2) (run s1 l2)).
  { apply run_same_work. rewrite (process_image_raise _ _ _ He). done. }
  destruct (flush_remaining_same_work _ _ Hsw) as [H1 H2].
  split; [done|]. split; [done|].
  destruct (flush_remaining_stdout (run (step s1 x) l2)) as [m1 ->].
  destruct (run_stdout l2 (step s1 x)) as [m2 Hm2].
  rewrite Hm2, (process_image_raise _ _ _ He). simpl.
  set_solver.
Qed.

End IngestionFacts.

Section IndexAccepts.
Variable W : world.
Variables (image_dir : string) (batch_size : Z) (namespace : string).
Hypothesis index_ok : ∀ h c, index_upsert W h c = Ok ().

#[local] Abbreviation step := (process_image W image_dir batch_size namespace).
#[local] Abbreviation run := (foldl (process_image W image_dir batch_size namespace)).

(** Nothing is lost and nothing is sent twice while the index accepts
    every call: the calls and the pending batch hold the embedded
    vectors, in order. *)
Lemma run_upserted l st :
  upserted (calls (run st l)) ++ batch (run st l)
  = upserted (calls st) ++ batch st ++ embedded W image_dir l.
Proof.
  revert st. induction l as [|x l IH]; intros st; simpl.
  - by rewrite app_nil_r.
  - rewrite IH. unfold process_image.
    destruct (embed_image W _) as [v|e]; simpl; [|done].
    destruct (_ <=? _); simpl.
    + rewrite index_ok. simpl. unfold upserted.
      rewrite map_app, concat_app. simpl. by rewrite !app_nil_r, <- !app_assoc.
    + by rewrite <- !app_assoc.
Qed.

Lemma ingest_entries_upserted l :
  upserted (calls (ingest_entries W image_dir batch_size namespace l).1)
  = embedded W image_dir l
  ∧ (ingest_entries W image_dir batch_size namespace l).2 = Ok ().
Proof.
  unfold ingest_entries, flush_remaining.
  pose proof (run_upserted l initial) as H. simpl in H.
  destruct (batch (run initial l)) as [|v b] eqn:E; simpl.
  - by rewrite app_nil_r in H.
  - rewrite index_ok. simpl. split; [|done].
    unfold upserted in *. rewrite map_app, concat_app. simpl.
    by rewrite app_nil_r.
Qed.


End IndexAccepts.




(** The directory listing is used once, to enumerate the entries. *)
Lemma batch_upsert_embeddings_listing W image_dir batch_size namespace entries :
  batch_upsert_embeddings (with_listing W entries) image_dir batch_size namespace
  = ingest_entries W image_dir batch_size namespace entries.
Proof. reflexivity. Qed.

(** C6: an entry whose decoding or embedding fails is reported on the output
    and skipped: the run ends as it would without that entry, with the same
    calls to the index and the same number of vectors upserted. *)
Theorem batch_upsert_embeddings_isolates_failure
    (W : world) (image_dir : string) (batch_size : Z) (namespace : string)
    (before : list string) (bad : string) (after : list string) (e : exn) :
  listdir W image_dir = Ok (before ++ bad :: after) →
  embed_image W (os_path_join image_dir bad) = Raise e →
  let with_bad := batch_upsert_embeddings W image_dir batch_size namespace in
  let without :=
    batch_upsert_embeddings (with_listing W (before ++ after))
      image_dir batch_size namespace in
  Error_processing bad e ∈ stdout with_bad.1
  ∧ with_bad.2 = without.2
  ∧ calls with_bad.1 = calls without.1
  ∧ length (upserted (calls with_bad.1)) = length (upserted (calls without.1)).
Proof.
  intros Hls He. cbv zeta. rewrite batch_upsert_embeddings_listing.
  unfold batch_upsert_embeddings. rewrite Hls.
  destruct (ingest_entries_skip W image_dir batch_size namespace before bad after e He)
    as ([_ Hc] & Hr & Hin).
  rewrite Hc. done.
Qed.

Lemma batch_upsert_embeddings_isolates_failure_witness :
  let W := sample_world ["a.jpg"; "bad.jpg"; "c.jpg"] in
  let with_bad := batch_upsert_embeddings W "cards" 2 "mtg_cards" in
  let without :=
    batch_upsert_embeddings (with_listing W (["a.jpg"] ++ ["c.jpg"]))
      "cards" 2 "mtg_cards" in
  Error_processing "bad.jpg" AttributeError ∈ stdout with_bad.1
  ∧ with_bad.2 = without.2
  ∧ calls with_bad.1 = calls without.1
  ∧ length (upserted (calls with_bad.1)) = length (upserted (calls without.1)).
Proof.
  apply (batch_upsert_embeddings_isolates_failure
           (sample_world ["a.jpg"; "bad.jpg"; "c.jpg"]) "cards" 2 "mtg_cards"
           ["a.jpg"] "bad.jpg" ["c.jpg"] AttributeError).
  - reflexivity.
  - reflexivity.
Defined.


(** Among lists that share no element, exactly one holds a given element of
    their concatenation. *)
Lemma one_holder (ids : list (list string)) (x : string) :
  NoDup (concat ids) → x ∈ concat ids →
  length (List.filter (existsb (String.eqb x)) ids) = 1%nat.
Proof.
  assert (Hex : ∀ l, existsb (String.eqb x) l = true ↔ x ∈ l).
  { intros l. rewrite existsb_exists. split.
    - intros (y & Hy & Hxy). apply String.eqb_eq in Hxy. subst y.
      by apply list_elem_of_In.
    - intros Hx. exists x. split; [by apply list_elem_of_In|apply String.eqb_refl]. }
  assert (Hnone : ∀ L, x ∉ concat L → List.filter (existsb (String.eqb x)) L = []).
  { induction L as [|l L IH]; simpl; intros Hn; [done|].
    destruct (existsb _ l) eqn:E.
    - apply Hex in E. exfalso. apply Hn, elem_of_app. by left.
    - apply IH. intros Hin. apply Hn, elem_of_app. by right. }
  induction ids as [|l L IH]; simpl; intros Hnd Hx.
  - by apply elem_of_nil in Hx.
  - apply NoDup_app in Hnd as (Hl & Hdis & HL).
    destruct (existsb _ l) eqn:E.
    + apply Hex in E. simpl. rewrite Hnone; [done|]. by apply Hdis.
    + apply elem_of_app in Hx as [Hx|Hx].
      * apply Hex in Hx. congruence.
      * by apply IH.
Qed.

Lemma embedded_ids W image_dir entries :
  map vec_id (embedded W image_dir entries)
  = List.filter (λ x, is_ok (embed_image W (os_path_join image_dir x))) entries.
Proof.
  induction entries as [|x l IH]; simpl; [done|].
  destruct (embed_image W _); simpl; by rewrite IH.
Qed.

(** X11: While the index accepts every call, for any batch size, every entry
    that embeds is sent in exactly one call. *)
Lemma batch_upsert_embeddings_exactly_once
    (W : world) (image_dir : string) (batch_size : Z) (namespace : string)
    (entries : list string) (x : string) :
  listdir W image_dir = Ok entries →
  (∀ h c, index_upsert W h c = Ok ()) →
  NoDup entries →
  x ∈ entries →
  is_ok (embed_image W (os_path_join image_dir x)) = true →
  times_sent x (calls (batch_upsert_embeddings W image_dir batch_size namespace).1)
  = 1%nat.
Proof.
  intros Hls Hidx Hnd Hx Hok.
  unfold batch_upsert_embeddings. rewrite Hls.
  destruct (ingest_entries_upserted W image_dir batch_size namespace Hidx entries)
    as [Hup _].
  set (cs := calls _) in *.
  assert (Hids : concat (map (λ c, map vec_id (call_vectors c)) cs)
                 = List.filter (λ y, is_ok (embed_image W (os_path_join image_dir y)))
                     entries).
  { rewrite <- embedded_ids, <- Hup. unfold upserted.
    clear. induction cs as [|c cs IH]; simpl; [done|].
    by rewrite map_app, IH. }
  unfold times_sent, sent_in.
  pose proof (one_holder (map (λ c, map vec_id (call_vectors c)) cs) x) as H1.
  rewrite Hids in H1.
  assert (Hlen : ∀ L : list upsert_call,
             length (List.filter (λ c, existsb (String.eqb x) (map vec_id (call_vectors c))) L)
             = length (List.filter (existsb (String.eqb x))
                         (map (λ c, map vec_id (call_vectors c)) L))).
  { induction L as [|c L IH]; simpl; [done|].
    destruct (existsb _ _); simpl; by rewrite IH. }
  rewrite Hlen. apply H1.
  - apply NoDup_ListNoDup, List.NoDup_filter, NoDup_ListNoDup, Hnd.
  - apply list_elem_of_In, filter_In. split; [by apply list_elem_of_In|done].
Qed.

(** C7: with batch size 1 and an index that refuses its first call, the
    first entry is sent in two calls: the failed one and, the batch not
    having been cleared, the next one together with the second entry. *)
Theorem batch_upsert_embeddings_resends_after_refusal :
  let run := batch_upsert_embeddings (flaky_world ["a.jpg"; "b.jpg"])
               "cards" 1 "mtg_cards" in
  map vec_id (embedded (flaky_world ["a.jpg"; "b.jpg"]) "cards" ["a.jpg"; "b.jpg"])
    = ["a.jpg"; "b.jpg"]
  ∧ map (λ c, map vec_id (call_vectors c)) (calls run.1)
    = [["a.jpg"]; ["a.jpg"; "b.jpg"]]
  ∧ times_sent "a.jpg" (calls run.1) = 2%nat
  ∧ run.2 = Ok ().
Proof. vm_compute. repeat split. Qed.

(** ** Image normaliser *)

(** Rounding shows in the scaled size: in binary64 [55 * (224 / 55)] falls
    just under 224, so a 55 by 55 image gets a content of 223 by 223. *)
Lemma scaled_square_55 :
  (scale ← int_truediv 224 55; scaled 55 scale) = Ok 223.
Proof. reflexivity. Qed.

(** C1: a 225 pixels wide, 1 pixel high image normalised to 224: the
    scaled height is [int(1 * (224 / 225)) = 0], OpenCV refuses the empty
    size and no canvas is returned. *)
Theorem resize_with_padding_flat_image (interp : image → nat → nat → image) :
  (sh ← int_truediv 224 1; sw ← int_truediv 224 225; scaled 1 (float_min sh sw))
    = Ok 0
  ∧ resize_with_padding interp [replicate 225 black] 224 = Raise CvError.
Proof. split; vm_compute; reflexivity. Qed.

(** *** The canvas *)

Lemma paste_row_length (dst src : list pixel) (col : nat) :
  (col + length src ≤ length dst)%nat →
  length (paste_row dst src col) = length dst.
Proof.
  intros H. unfold paste_row.
  rewrite !length_app, length_take, length_drop. lia.
Qed.

Lemma paste_row_lookup (dst src : list pixel) (col j : nat) :
  (col + length src ≤ length dst)%nat →
  paste_row dst src col !! j
  = if decide (col ≤ j < col + length src)%nat then src !! (j - col)%nat
    else dst !! j.
Proof.
  intros H. unfold paste_row.
  destruct (decide (j < col)%nat) as [Hlt|Hge].
  - rewrite lookup_app_l by (rewrite length_take; lia).
    rewrite lookup_take_lt by lia. case_decide; [lia|done].
  - rewrite lookup_app_r by (rewrite length_take; lia).
    rewrite length_take, Nat.min_l by lia.
    destruct (decide (j < col + length src)%nat) as [Hin|Hout].
    + rewrite lookup_app_l by lia. case_decide; [done|lia].
    + rewrite lookup_app_r by lia. rewrite lookup_drop.
      case_decide; [lia|]. f_equal. lia.
Qed.

Lemma paste_lookup (canvas value : image) (top col i : nat) :
  (top + length value ≤ length canvas)%nat →
  paste canvas value top col !! i
  = if decide (top ≤ i < top + length value)%nat
    then dst ← canvas !! i; src ← value !! (i - top)%nat; Some (paste_row dst src col)
    else canvas !! i.
Proof.
  intros H. unfold paste.
  destruct (decide (i < top)%nat) as [Hlt|Hge].
  - rewrite lookup_app_l by (rewrite length_take; lia).
    rewrite lookup_take_lt by lia. case_decide; [lia|done].
  - rewrite lookup_app_r by (rewrite length_take; lia).
    rewrite length_take, Nat.min_l by lia.
    assert (Hz : length (zip_with (λ dst src, paste_row dst src col)
                           (take (length value) (drop top canvas)) value)
                 = length value).
    { rewrite length_zip_with, length_take, length_drop. lia. }
    destruct (decide (i < top + length value)%nat) as [Hin|Hout].
    + rewrite lookup_app_l by lia. case_decide; [|lia].
      rewrite lookup_zip_with, lookup_take_lt, lookup_drop by lia.
      replace (top + (i - top))%nat with i by lia. done.
    + rewrite lookup_app_r by lia. rewrite Hz, lookup_drop.
      case_decide; [lia|]. f_equal. lia.
Qed.

Lemma paste_shape (canvas value : image) (top col H W h w : nat) :
  has_shape canvas H W → has_shape value h w →
  (top + h ≤ H)%nat → (col + w ≤ W)%nat →
  has_shape (paste canvas value top col) H W.
Proof.
  intros [Hc1 Hc2] [Hv1 Hv2] Ht Hl. split.
  - unfold paste. rewrite !length_app, length_zip_with, !length_take, !length_drop. lia.
  - apply Forall_lookup. intros i r Hr.
    rewrite paste_lookup in Hr by lia. case_decide.
    + destruct (canvas !! i) as [dst|] eqn:Hd; [|done].
      destruct (value !! (i - top)%nat) as [src|] eqn:Hs; [|done].
      injection Hr as <-.
      pose proof (proj1 (Forall_lookup _ _) Hc2 _ _ Hd) as Hdl.
      pose proof (proj1 (Forall_lookup _ _) Hv2 _ _ Hs) as Hsl.
      rewrite paste_row_length; simpl in *; lia.
    + by apply (proj1 (Forall_lookup _ _) Hc2 i).
Qed.

Lemma paste_pixel (canvas value : image) (top col H W h w i j : nat) :
  has_shape canvas H W → has_shape value h w →
  (top + h ≤ H)%nat → (col + w ≤ W)%nat →
  pixel_at (paste canvas value top col) i j
  = if decide ((top ≤ i < top + h)%nat ∧ (col ≤ j < col + w)%nat)
    then pixel_at value (i - top) (j - col)
    else pixel_at canvas i j.
Proof.
  intros [Hc1 Hc2] [Hv1 Hv2] Ht Hl. unfold pixel_at.
  rewrite paste_lookup by lia. rewrite Hv1.
  destruct (decide (top ≤ i < top + h)%nat) as [Hi|Hi].
  - destruct (lookup_lt_is_Some_2 canvas i ltac:(lia)) as [dst Hd].
    destruct (lookup_lt_is_Some_2 value (i - top) ltac:(lia)) as [src Hs].
    rewrite Hd, Hs. simpl.
    pose proof (proj1 (Forall_lookup _ _) Hc2 _ _ Hd) as Hdl.
    pose proof (proj1 (Forall_lookup _ _) Hv2 _ _ Hs) as Hsl. simpl in *.
    rewrite paste_row_lookup by lia. rewrite Hsl.
    destruct (decide (col ≤ j < col + w)%nat); case_decide; try done; tauto.
  - case_decide; [tauto|done].
Qed.

Lemma broadcast_same {A} (l : list A) : broadcast l (length l) = Ok l.
Proof. unfold broadcast. by rewrite decide_True. Qed.

Lemma setitem_window_shaped (canvas value : image) (H W h w top col : nat) :
  has_shape canvas H W → has_shape value h w →
  (0 < H)%nat → (top + h ≤ H)%nat → (col + w ≤ W)%nat →
  setitem_window canvas (Z.of_nat top) (Z.of_nat top + Z.of_nat h)
    (Z.of_nat col) (Z.of_nat col + Z.of_nat w) value
  = Ok (paste canvas value top col).
Proof.
  intros [Hc1 Hc2] [Hv1 Hv2] HH Ht Hl. unfold setitem_window.
  assert (Hh : height canvas = Z.of_nat H) by (unfold height; by rewrite Hc1).
  assert (Hw : width canvas = Z.of_nat W).
  { unfold width. destruct canvas as [|r c]; [simpl in Hc1; lia|].
    apply Forall_cons in Hc2 as [-> _]. done. }
  assert (Hsl : ∀ a n len : nat, (a + n ≤ len)%nat →
            slice_bounds (Z.of_nat a) (Z.of_nat a + Z.of_nat n) (Z.of_nat len) = (a, n)).
  { intros a n len Hle. unfold slice_bounds.
    destruct (Z.ltb_spec (Z.of_nat a) 0); [lia|].
    destruct (Z.ltb_spec (Z.of_nat a + Z.of_nat n) 0); [lia|].
    f_equal; lia. }
  rewrite Hh, Hw, !Hsl by lia. rewrite <- Hv1, broadcast_same.
  cbn [mbind result_bind].
  assert (Heach : ∀ rs : image, Forall (λ r, length r = w) rs →
            (fix each (rs : image) : result image :=
               match rs with
               | [] => Ok []
               | r :: rs' => r' ← broadcast r w; t ← each rs'; Ok (r' :: t)
               end) rs = Ok rs).
  { induction 1 as [|r rs Hr _ IH]; [done|].
    rewrite <- Hr at 1. rewrite broadcast_same. cbn [mbind result_bind].
    rewrite IH. done. }
  by rewrite Heach.
Qed.

(** X1: When both scaled dimensions are at least 1 and at most the target, the
    normaliser returns a canvas of target by target pixels: the resized
    content sits at offset [(pad_h, pad_w)] and every pixel outside it is
    white. *)
Lemma resize_with_padding_canvas (interp : image → nat → nat → image)
    (img : image) (target_size new_w new_h : Z) (sh sw : float) :
  0 < height img → 0 < width img →
  int_truediv target_size (height img) = Ok sh →
  int_truediv target_size (width img) = Ok sw →
  scaled (width img) (float_min sh sw) = Ok new_w →
  scaled (height img) (float_min sh sw) = Ok new_h →
  1 ≤ new_w ≤ target_size → 1 ≤ new_h ≤ target_size →
  let resized := interp img (Z.to_nat new_w) (Z.to_nat new_h) in
  let pad_w := (target_size - new_w) `div` 2 in
  let pad_h := (target_size - new_h) `div` 2 in
  has_shape resized (Z.to_nat new_h) (Z.to_nat new_w) →
  ∃ canvas,
    resize_with_padding interp img target_size = Ok canvas
    ∧ has_shape canvas (Z.to_nat target_size) (Z.to_nat target_size)
    ∧ ∀ i j : nat, Z.of_nat i < target_size → Z.of_nat j < target_size →
        pixel_at canvas i j
        = if decide ((pad_h ≤ Z.of_nat i < pad_h + new_h)
                     ∧ (pad_w ≤ Z.of_nat j < pad_w + new_w))
          then pixel_at resized (i - Z.to_nat pad_h) (j - Z.to_nat pad_w)
          else Some white.
Proof.
  intros Hh Hw Hsh Hsw Hnw Hnh Hbw Hbh resized pad_w pad_h Hres.
  assert (Hpw : 0 ≤ pad_w ∧ pad_w + new_w ≤ target_size).
  { unfold pad_w. pose proof (Z.div_pos (target_size - new_w) 2 ltac:(lia) ltac:(lia)).
    pose proof (Z.mul_div_le (target_size - new_w) 2 ltac:(lia)). lia. }
  assert (Hph : 0 ≤ pad_h ∧ pad_h + new_h ≤ target_size).
  { unfold pad_h. pose proof (Z.div_pos (target_size - new_h) 2 ltac:(lia) ltac:(lia)).
    pose proof (Z.mul_div_le (target_size - new_h) 2 ltac:(lia)). lia. }
  set (n := Z.to_nat target_size).
  set (blank := replicate n (replicate n white)).
  assert (Hblank : has_shape blank n n).
  { split; [apply length_replicate|]. apply Forall_replicate, length_replicate. }
  exists (paste blank resized (Z.to_nat pad_h) (Z.to_nat pad_w)).
  split; [|split].
  - unfold resize_with_padding. rewrite Hsh. cbn [mbind result_bind].
    rewrite Hsw. cbn [mbind result_bind]. rewrite Hnw. cbn [mbind result_bind].
    rewrite Hnh. cbn [mbind result_bind]. unfold cv2_resize.
    destruct (Z.leb_spec (height img) 0); [lia|].
    destruct (Z.leb_spec (width img) 0); [lia|].
    destruct (Z.leb_spec new_w 0); [lia|].
    destruct (Z.leb_spec new_h 0); [lia|].
    cbn [orb mbind result_bind]. unfold np_full_white.
    destruct (Z.ltb_spec target_size 0); [lia|]. cbn [mbind result_bind].
    fold n. fold blank. fold resized. fold pad_w. fold pad_h.
    rewrite <- (setitem_window_shaped blank resized n n (Z.to_nat new_h) (Z.to_nat new_w));
      [|done|done|lia|lia|lia].
    f_equal; lia.
  - eapply paste_shape; [exact Hblank|exact Hres|lia|lia].
  - intros i j Hi Hj.
    rewrite (paste_pixel blank resized _ _ n n (Z.to_nat new_h) (Z.to_nat new_w))
      by (done || lia).
    destruct (decide ((Z.to_nat pad_h ≤ i < Z.to_nat pad_h + Z.to_nat new_h)%nat
                      ∧ (Z.to_nat pad_w ≤ j < Z.to_nat pad_w + Z.to_nat new_w)%nat));
      case_decide; try done; try lia.
    unfold pixel_at, blank.
    rewrite lookup_replicate_2 by lia. simpl. by rewrite lookup_replicate_2 by lia.
Qed.

(** ** Catalogue ledger *)

Lemma extract_fields_dict (card : gmap string pyval) (c : card_fields) :
  extract_fields (PDict card) = Ok c →
  card !! "id" = Some (cf_id c)
  ∧ card !! "name" = Some (cf_name c)
  ∧ cf_mana_cost c = card_field card (PStr "") "mana_cost"
  ∧ cf_cmc c = card_field card (PInt 0) "cmc"
  ∧ replace_em_dash (card_field card (PStr "") "type_line") = Ok (cf_type_line c)
  ∧ cf_colors c = card_field card (PList []) "colors"
  ∧ cf_color_identity c = card_field card (PList []) "color_identity"
  ∧ cf_set_name c = card_field card (PStr "") "set_name"
  ∧ cf_rarity c = card_field card (PStr "") "rarity"
  ∧ cf_full_art c = card_field card (PBool false) "full_art"
  ∧ get (card_field card (PDict ∅) "prices") "usd" (PStr "") = Ok (cf_price c).
Proof.
  unfold extract_fields, card_field. cbn [getitem get].
  destruct (card !! "id") as [vid|]; [|done].
  destruct (card !! "name") as [vname|]; [|done].
  cbn [of_option mbind result_bind].
  destruct (replace_em_dash _) as [tl|]; [|done].
  cbn [mbind result_bind].
  destruct (get (default (PDict ∅) (card !! "prices")) "usd" (PStr "")) as [pr|]; [|done].
  cbn [mbind result_bind]. intros [= <-]. by cbn.
Qed.

Lemma extract_fields_not_dict (cd : pyval) (c : card_fields) :
  extract_fields cd = Ok c → ∃ card, cd = PDict card.
Proof. destruct cd; try done. by eexists. Qed.

Section CatalogFacts.
Context {RT : Runtime}.

(** The row an update leaves: only the two computed fields change. *)
Lemma updated_row_fields (row : gmap string string) (n : Z) (t : float) :
  let row' := <["total_value" := PFloat t]>
                (<["number_owned" := PInt n]> (as_read row)) in
  row' !! "number_owned" = Some (PInt n)
  ∧ row' !! "total_value" = Some (PFloat t)
  ∧ ∀ k, k ≠ "number_owned" → k ≠ "total_value" → row' !! k = PStr <$> row !! k.
Proof.
  cbv zeta. split; [|split].
  - by rewrite lookup_insert_ne, lookup_insert_eq.
  - by rewrite lookup_insert_eq.
  - intros k H1 H2. rewrite !lookup_insert_ne by done.
    unfold as_read. by rewrite lookup_fmap.
Qed.

(** The loop passes over rows with another id. *)
Lemma update_existing_app (others rows : list (gmap string string)) (id price : pyval) :
  Forall (λ r, ∃ rid, r !! "id" = Some rid ∧ cell_eq rid id = false) others →
  update_existing (others ++ rows) id price
  = r ← update_existing rows id price; Ok (option_map (app (map as_read others)) r).
Proof.
  induction 1 as [|r others (rid & Hid & Hne) _ IH]; simpl.
  - destruct (update_existing rows id price) as [[?|]|]; done.
  - rewrite Hid. cbn [of_option mbind result_bind]. rewrite Hne, IH.
    destruct (update_existing rows id price) as [[?|]|]; done.
Qed.

Lemma update_existing_none (rows : list (gmap string string)) (id price : pyval) :
  Forall (λ r, ∃ rid, r !! "id" = Some rid ∧ cell_eq rid id = false) rows →
  update_existing rows id price = Ok None.
Proof.
  intros H. rewrite <- (app_nil_r rows), update_existing_app by done. done.
Qed.

(** What a successful pass of the loop did. *)
Lemma update_existing_inv (rows : list (gmap string string)) (id price : pyval) r :
  update_existing rows id price = Ok r →
  match r with
  | None =>
      Forall (λ r, ∃ rid, r !! "id" = Some rid ∧ cell_eq rid id = false) rows
  | Some rows' =>
      ∃ others row rest rid owned n p t,
        rows = others ++ row :: rest
        ∧ Forall (λ r, ∃ rid, r !! "id" = Some rid ∧ cell_eq rid id = false) others
        ∧ row !! "id" = Some rid ∧ cell_eq rid id = true
        ∧ row !! "number_owned" = Some owned
        ∧ int_of_str owned = Some n
        ∧ py_float price = Ok p
        ∧ int_mul_float (n + 1) p = Ok t
        ∧ rows' = map as_read others
                    ++ <["total_value" := PFloat t]>
                         (<["number_owned" := PInt (n + 1)]> (as_read row))
                    :: map as_read rest
  end.
Proof.
  revert r. induction rows as [|row rows IH]; intros r; simpl.
  - intros [= <-]. constructor.
  - destruct (row !! "id") as [rid|] eqn:Hid; [|done].
    cbn [of_option mbind result_bind].
    destruct (cell_eq rid id) eqn:Heq.
    + destruct (row !! "number_owned") as [owned|] eqn:Ho; [|done].
      cbn [of_option mbind result_bind].
      destruct (int_of_str owned) as [n|] eqn:Hn; [|done].
      cbn [of_option mbind result_bind].
      destruct (py_float price) as [p|] eqn:Hp; [|done].
      cbn [mbind result_bind].
      destruct (int_mul_float (n + 1) p) as [t|] eqn:Ht; [|done].
      cbn [mbind result_bind]. intros [= <-].
      exists [], row, rows, rid, owned, n, p, t. by repeat split.
    + destruct (update_existing rows id price) as [r'|] eqn:Hr; [|done].
      cbn [mbind result_bind]. intros [= <-].
      specialize (IH _ eq_refl). destruct r' as [rows'|]; simpl.
      * destruct IH as (others & row0 & rest & rid0 & owned & n & p & t
                        & -> & Hoth & H1 & H2 & H3 & H4 & H5 & H6 & ->).
        exists (row :: others), row0, rest, rid0, owned, n, p, t.
        repeat split; try done. constructor; [by exists rid|done].
      * constructor; [by exists rid|done].
Qed.

(** With a price that [float] rejects the loop updates nothing. *)
Lemma update_existing_price_error (rows : list (gmap string string)) (id price : pyval) e :
  py_float price = Raise e →
  ∀ rows', update_existing rows id price ≠ Ok (Some rows').
Proof.
  intros Hp rows' H. apply update_existing_inv in H.
  destruct H as (? & ? & ? & ? & ? & ? & p & ? & _ & _ & _ & _ & _ & _ & Hp' & _).
  congruence.
Qed.

Lemma reconcile_price_error (rows : list (gmap string string)) (cd : pyval) c e :
  extract_fields cd = Ok c →
  py_float (cf_price c) = Raise e →
  ∃ e', reconcile rows cd = Raise e'.
Proof.
  intros Hc Hp. unfold reconcile. rewrite Hc. cbn [mbind result_bind].
  destruct (update_existing rows (cf_id c) (cf_price c)) as [[rows'|]|e'] eqn:Hu.
  - by apply update_existing_price_error with (e := e) in Hu.
  - cbn [mbind result_bind]. unfold new_row. rewrite Hp. by eexists.
  - by eexists.
Qed.


End CatalogFacts.



(** C10: when [float] rejects the price the call raises before anything is
    written: the file system is exactly the one the call started from. *)
Theorem add_card_data_to_csv_price_error_keeps_file
    `{RT : Runtime} (repr : pyval → string) (http_json : string → result pyval)
    (fs : gmap string (list (gmap string string)))
    (file_path top_result_id : string) (card_data : pyval) (c : card_fields)
    (e : exn) :
  get_card_details http_json top_result_id = Ok card_data →
  extract_fields card_data = Ok c →
  py_float (cf_price c) = Raise e →
  ∃ e', add_card_data_to_csv repr http_json fs file_path top_result_id
        = (fs, Raise e').
Proof.
  intros Hget Hc Hp. unfold add_card_data_to_csv.
  rewrite Hget. cbn [mbind result_bind].
  destruct (reconcile_price_error (read_rows fs file_path) card_data c e Hc Hp)
    as [e' ->].
  by exists e'.
Qed.

Lemma add_card_data_to_csv_price_error_keeps_file_witness :
  ∃ e', add_card_data_to_csv (RT := decimal_runtime) kind_repr
          (service mispriced_card) disk catalog_path "c1"
        = (disk, Raise e').
Proof.
  eapply (add_card_data_to_csv_price_error_keeps_file (RT := decimal_runtime)
            kind_repr (service mispriced_card) disk catalog_path "c1"
            mispriced_card _ ValueError).
  - reflexivity.
  - reflexivity.
  - reflexivity.
Defined.

(** C4, as the code has it: reconciling a card whose row exists adds 1 to
    [number_owned] and sets [total_value] to the new [number_owned] times
    the newly observed price; the stored [price], like every other field of
    the row and every other row, stays as it was. *)
Theorem reconcile_existing_row
    `{RT : Runtime} (others rest : list (gmap string string))
    (row : gmap string string) (card_data : pyval) (c : card_fields)
    (cid owned : string) (n : Z) (p t : float) :
  extract_fields card_data = Ok c →
  cf_id c = PStr cid →
  Forall (λ r, ∃ rid, r !! "id" = Some rid ∧ rid ≠ cid) others →
  row !! "id" = Some cid →
  row !! "number_owned" = Some owned →
  int_of_str owned = Some n →
  py_float (cf_price c) = Ok p →
  int_mul_float (n + 1) p = Ok t →
  ∃ row',
    reconcile (others ++ row :: rest) card_data
    = Ok (map as_read others ++ row' :: map as_read rest)
    ∧ row' !! "number_owned" = Some (PInt (n + 1))
    ∧ row' !! "total_value" = Some (PFloat t)
    ∧ row' !! "price" = PStr <$> row !! "price"
    ∧ ∀ k, k ≠ "number_owned" → k ≠ "total_value" → row' !! k = PStr <$> row !! k.
Proof.
  intros Hc Hid Hoth Hrid Hown Hn Hp Ht.
  exists (<["total_value" := PFloat t]>
            (<["number_owned" := PInt (n + 1)]> (as_read row))).
  destruct (updated_row_fields row (n + 1) t) as (H1 & H2 & H3).
  split; [|split; [exact H1|split; [exact H2|split; [by apply H3|exact H3]]]].
  unfold reconcile. rewrite Hc. cbn [mbind result_bind].
  rewrite Hid, update_existing_app.
  - simpl. rewrite Hrid. cbn [of_option mbind result_bind].
    rewrite String.eqb_refl, Hown. cbn [of_option mbind result_bind].
    rewrite Hn. cbn [of_option mbind result_bind].
    rewrite Hp. cbn [mbind result_bind]. rewrite Ht. done.
  - eapply Forall_impl; [exact Hoth|]. intros r (rid & Hr & Hne).
    exists rid. split; [done|]. simpl. by apply String.eqb_neq.
Qed.

Lemma reconcile_existing_row_witness :
  ∃ row',
    reconcile (RT := decimal_runtime) ([] ++ hd ∅ stale_ledger :: []) repriced_card
    = Ok (map as_read [] ++ row' :: map as_read [])
    ∧ row' !! "number_owned" = Some (PInt (1 + 1))
    ∧ row' !! "total_value" = Some (PFloat (S754_finite false 4503599627370496 (-50)))
    ∧ row' !! "price" = PStr <$> hd ∅ stale_ledger !! "price"
    ∧ ∀ k, k ≠ "number_owned" → k ≠ "total_value" →
           row' !! k = PStr <$> hd ∅ stale_ledger !! k.
Proof.
  eapply (reconcile_existing_row (RT := decimal_runtime) [] [] (hd ∅ stale_ledger)
            repriced_card _ "c1" "1" 1
            (S754_finite false 4503599627370496 (-51))).
  - reflexivity.
  - reflexivity.
  - constructor.
  - reflexivity.
  - reflexivity.
  - reflexivity.
  - reflexivity.
  - reflexivity.
Defined.

(** The stored price is not refreshed: a row bought at 1.00 and reconciled
    at 2.00 still says 1.00. *)
Lemma reconcile_keeps_stored_price :
  cf_price <$> to_option (extract_fields repriced_card) = Some (PStr "2.00")
  ∧ field_of (reconcile (RT := decimal_runtime) stale_ledger repriced_card) 0 "number_owned"
    = Some (PInt 2)
  ∧ field_of (reconcile (RT := decimal_runtime) stale_ledger repriced_card) 0 "price"
    = Some (PStr "1.00")
  ∧ field_of (reconcile (RT := decimal_runtime) stale_ledger repriced_card) 0 "price"
    ≠ Some (PStr "2.00").
Proof. vm_compute. repeat split; discriminate. Qed.


(** *** Through the file *)

Section ThroughTheFile.
Context {RT : Runtime}.
Variable repr : pyval → string.

Lemma dict_to_list_as_read (row : gmap string string) :
  dom row ⊆ list_to_set fieldnames →
  dict_to_list repr (as_read row) = Ok (rewritten row).
Proof.
  intros Hdom. unfold dict_to_list, as_read.
  rewrite decide_True by (by rewrite dom_fmap_L).
  unfold rewritten. do 2 f_equal. apply list_fmap_ext. intros _ k _.
  rewrite lookup_fmap. by destruct (row !! k).
Qed.

Lemma dom_rewritten (row : gmap string string) :
  dom (rewritten row) ⊆ list_to_set fieldnames.
Proof. unfold rewritten. rewrite dom_list_to_map_L, <- list_fmap_compose. done. Qed.

Lemma rewritten_idemp (row : gmap string string) :
  rewritten (rewritten row) = rewritten row.
Proof. reflexivity. Qed.

Lemma writerows_app (a b : list (gmap string pyval)) wa :
  writerows repr a = (wa, Ok ()) →
  writerows repr (a ++ b) = (wa ++ (writerows repr b).1, (writerows repr b).2).
Proof.
  revert wa. induction a as [|r a IH]; intros wa; simpl.
  - intros [= <-]. by destruct (writerows repr b).
  - destruct (dict_to_list repr r) as [cells|]; [|done].
    destruct (writerows repr a) as [w res] eqn:Hw. intros [= <- ->].
    by rewrite (IH w eq_refl).
Qed.

Lemma writerows_as_read (rows : list (gmap string string)) :
  Forall (λ r, dom r ⊆ list_to_set fieldnames) rows →
  writerows repr (map as_read rows) = (map rewritten rows, Ok ()).
Proof.
  induction 1 as [|r rows Hr _ IH]; simpl; [done|].
  by rewrite dict_to_list_as_read, IH.
Qed.

(** The table a successful call leaves in the file. *)
Lemma add_card_data_to_csv_writes http_json fs file_path top_result_id card_data rows' :
  get_card_details http_json top_result_id = Ok card_data →
  reconcile (read_rows fs file_path) card_data = Ok rows' →
  add_card_data_to_csv repr http_json fs file_path top_result_id
  = (<[file_path := (writerows repr rows').1]> fs, (writerows repr rows').2).
Proof.
  intros Hget Hrec. unfold add_card_data_to_csv.
  rewrite Hget. cbn [mbind result_bind]. rewrite Hrec.
  by destruct (writerows repr rows').
Qed.

End ThroughTheFile.

Section ReconcileTwice.
Context {RT : Runtime}.
Variable repr : pyval → string.

(** The fields taken from card data that have an id, a name, a type line
    that is a text, and a price table. *)
Lemma extract_fields_card (card : gmap string pyval) (type_line : string) d :
  is_Some (card !! "id") →
  is_Some (card !! "name") →
  card_field card (PStr "") "type_line" = PStr type_line →
  card_field card (PDict ∅) "prices" = PDict d →
  extract_fields (PDict card)
  = Ok {| cf_id := card_field card PNone "id";
          cf_name := card_field card PNone "name";
          cf_mana_cost := card_field card (PStr "") "mana_cost";
          cf_cmc := card_field card (PInt 0) "cmc";
          cf_type_line := replace type_line "—" "-";
          cf_colors := card_field card (PList []) "colors";
          cf_color_identity := card_field card (PList []) "color_identity";
          cf_set_name := card_field card (PStr "") "set_name";
          cf_rarity := card_field card (PStr "") "rarity";
          cf_full_art := card_field card (PBool false) "full_art";
          cf_price := card_price card |}.
Proof.
  intros [vid Hid] [vname Hname] Htl Hd.
  unfold extract_fields, card_price. unfold card_field in *.
  cbn [getitem get]. rewrite Hid, Hname, Htl, Hd. reflexivity.
Qed.

Lemma card_price_dict (card : gmap string pyval) p :
  py_float (card_price card) = Ok p →
  ∃ d, card_field card (PDict ∅) "prices" = PDict d.
Proof.
  unfold card_price. destruct (card_field card (PDict ∅) "prices"); try done.
  by eexists.
Qed.

(** C5, as the code has it: from a ledger without the card, one
    reconciliation appends one row with [number_owned] 1, [total_value]
    the price and the fields of the card data, the type line with every
    em dash replaced by a hyphen; a second one, at the same price, turns
    that row into [number_owned] 2 and [total_value] twice the price and
    appends nothing. *)
Theorem add_card_data_to_csv_twice
    (http_first http_second : string → result pyval)
    (fs : gmap string (list (gmap string string)))
    (file_path top_result_id : string)
    (card : gmap string pyval) (cid type_line : string) (p : float)
    (card_data_second : pyval) (c_second : card_fields) :
  Forall (λ r, (∃ rid, r !! "id" = Some rid ∧ rid ≠ cid)
               ∧ dom r ⊆ list_to_set fieldnames)
    (read_rows fs file_path) →
  get_card_details http_first top_result_id = Ok (PDict card) →
  card !! "id" = Some (PStr cid) →
  is_Some (card !! "name") →
  card_field card (PStr "") "type_line" = PStr type_line →
  py_float (card_price card) = Ok p →
  get_card_details http_second top_result_id = Ok card_data_second →
  extract_fields card_data_second = Ok c_second →
  cf_id c_second = PStr cid →
  py_float (cf_price c_second) = Ok p →
  int_of_str "1" = Some 1 →
  let kept := map rewritten (read_rows fs file_path) in
  let once := add_card_data_to_csv repr http_first fs file_path top_result_id in
  let twice := add_card_data_to_csv repr http_second once.1 file_path top_result_id in
  once.2 = Ok ()
  ∧ read_rows once.1 file_path
    = kept ++ [card_cells repr card (replace type_line "—" "-") "1" p]
  ∧ twice.2 = Ok ()
  ∧ ∃ doubled,
      int_mul_float 2 p = Ok doubled
      ∧ read_rows twice.1 file_path
        = kept ++ [card_cells repr card (replace type_line "—" "-") "2" doubled].
Proof.
  intros Hrows Hget1 Hid Hname Htl Hp Hget2 Hc2 Hid2 Hp2 Hone kept once twice.
  set (rows := read_rows fs file_path) in *.
  assert (Hids : Forall (λ r, ∃ rid, r !! "id" = Some rid
                                     ∧ cell_eq rid (PStr cid) = false) rows).
  { eapply Forall_impl; [exact Hrows|]. intros r [(rid & Hr & Hne) _].
    exists rid. split; [done|]. by apply String.eqb_neq. }
  assert (Hdoms : Forall (λ r, dom r ⊆ list_to_set fieldnames) rows).
  { eapply Forall_impl; [exact Hrows|]. by intros r [_ ?]. }
  destruct (card_price_dict card p Hp) as [d Hd].
  pose proof (extract_fields_card card type_line d ltac:(by eexists) Hname Htl Hd) as Hc1.
  set (tl := replace type_line "—" "-") in *.
  assert (Hcid : card_field card PNone "id" = PStr cid)
    by (unfold card_field; by rewrite Hid).
  (* first reconciliation *)
  assert (Hrec1 : reconcile rows (PDict card)
                  = Ok (map as_read rows
                          ++ [list_to_map
                                [("id", PStr cid); ("name", card_field card PNone "name");
                                 ("mana_cost", card_field card (PStr "") "mana_cost");
                                 ("cmc", card_field card (PInt 0) "cmc");
                                 ("type_line", PStr tl);
                                 ("colors", card_field card (PList []) "colors");
                                 ("color_identity", card_field card (PList []) "color_identity");
                                 ("set_name", card_field card (PStr "") "set_name");
                                 ("rarity", card_field card (PStr "") "rarity");
                                 ("full_art", card_field card (PBool false) "full_art");
                                 ("price", card_price card);
                                 ("number_owned", PInt 1); ("total_value", PFloat p)]])).
  { unfold reconcile. rewrite Hc1. cbn [mbind result_bind cf_id cf_price].
    rewrite Hcid, update_existing_none by done. cbn [mbind result_bind].
    unfold new_row. cbn [cf_price]. rewrite Hp. cbn [mbind result_bind].
    cbn [cf_id cf_name cf_mana_cost cf_cmc cf_type_line cf_colors
         cf_color_identity cf_set_name cf_rarity cf_full_art cf_price].
    done. }
  assert (Hcells1 : ∀ owned total,
             card_cells repr card tl owned total
             = list_to_map
                 [("id", cid); ("name", cell_text repr (card_field card PNone "name"));
                  ("mana_cost", cell_text repr (card_field card (PStr "") "mana_cost"));
                  ("cmc", cell_text repr (card_field card (PInt 0) "cmc"));
                  ("type_line", tl);
                  ("colors", cell_text repr (card_field card (PList []) "colors"));
                  ("color_identity", cell_text repr (card_field card (PList []) "color_identity"));
                  ("set_name", cell_text repr (card_field card (PStr "") "set_name"));
                  ("rarity", cell_text repr (card_field card (PStr "") "rarity"));
                  ("full_art", cell_text repr (card_field card (PBool false) "full_art"));
                  ("price", cell_text repr (card_price card));
                  ("number_owned", owned); ("total_value", repr (PFloat total))]).
  { intros owned total. unfold card_cells. by rewrite Hcid. }
  assert (Honce : once = (<[file_path := kept ++ [card_cells repr card tl "1" p]]> fs, Ok ())).
  { unfold once.
    rewrite (add_card_data_to_csv_writes repr _ _ _ _ _ _ Hget1 Hrec1).
    rewrite (writerows_app repr _ _ _ (writerows_as_read repr rows Hdoms)).
    rewrite Hcells1. reflexivity. }
  (* second reconciliation *)
  assert (Hread : read_rows once.1 file_path = kept ++ [card_cells repr card tl "1" p]).
  { rewrite Honce. unfold read_rows. cbn [fst]. by rewrite lookup_insert_eq. }
  assert (Hdouble : int_mul_float 2 p
                    = Ok (float_mul (S754_finite false 4503599627370496 (-51)) p))
    by reflexivity.
  assert (Hkept_ids : Forall (λ r, ∃ rid, r !! "id" = Some rid
                                          ∧ cell_eq rid (cf_id c_second) = false) kept).
  { rewrite Hid2. unfold kept. apply Forall_fmap.
    eapply Forall_impl; [exact Hids|]. intros r (rid & Hr & Hne).
    exists rid. split; [|done]. unfold rewritten.
    change ((list_to_map ((λ k, (k, default "" (r !! k))) <$> fieldnames)
              : gmap string string) !! "id")
      with (Some (default "" (r !! "id"))).
    by rewrite Hr. }
  assert (Hrec2 : reconcile (kept ++ [card_cells repr card tl "1" p]) card_data_second
                  = Ok (map as_read kept
                          ++ [<["total_value" :=
                                  PFloat (float_mul (S754_finite false 4503599627370496 (-51)) p)]>
                                (<["number_owned" := PInt 2]>
                                   (as_read (card_cells repr card tl "1" p)))])).
  { unfold reconcile. rewrite Hc2. cbn [mbind result_bind].
    rewrite update_existing_app by done.
    rewrite Hcells1. cbn [update_existing].
    change ((list_to_map _ : gmap string string) !! "id") with (Some cid).
    cbn [of_option mbind result_bind]. rewrite Hid2. cbn [cell_eq].
    rewrite String.eqb_refl.
    change ((list_to_map _ : gmap string string) !! "number_owned") with (Some "1"%string).
    cbn [of_option mbind result_bind py_int]. rewrite Hone.
    cbn [of_option mbind result_bind]. rewrite Hp2.
    cbn [mbind result_bind]. change (1 + 1) with 2. rewrite Hdouble.
    cbn [mbind result_bind option_map map]. done. }
  assert (Htwice : twice
                   = (<[file_path :=
                          kept ++ [card_cells repr card tl "2"
                                     (float_mul (S754_finite false 4503599627370496 (-51)) p)]]>
                        once.1, Ok ())).
  { unfold twice.
    rewrite (add_card_data_to_csv_writes repr _ _ _ _ _ _ Hget2
               ltac:(rewrite Hread; exact Hrec2)).
    assert (Hk : writerows repr (map as_read kept) = (kept, Ok ())).
    { rewrite writerows_as_read.
      - unfold kept. rewrite map_map. f_equal.
      - unfold kept. apply Forall_fmap, Forall_true. intros r. apply dom_rewritten. }
    rewrite (writerows_app repr _ _ _ Hk). rewrite !Hcells1. reflexivity. }
  split; [by rewrite Honce|]. split; [exact Hread|].
  split; [by rewrite Htwice|].
  eexists. split; [exact Hdouble|].
  rewrite Htwice. unfold read_rows. cbn [fst]. by rewrite lookup_insert_eq.
Qed.

End ReconcileTwice.

Lemma add_card_data_to_csv_twice_witness :
  let fs : gmap string (list (gmap string string)) := {[ catalog_path := other_ledger ]} in
  let kept := map rewritten (read_rows fs catalog_path) in
  let once := add_card_data_to_csv (RT := decimal_runtime) kind_repr
                (service repriced_card) fs catalog_path "c1" in
  let twice := add_card_data_to_csv (RT := decimal_runtime) kind_repr
                 (service repriced_card) once.1 catalog_path "c1" in
  once.2 = Ok ()
  ∧ read_rows once.1 catalog_path
    = kept ++ [card_cells kind_repr repriced
                 (replace "Artifact — Equipment" "—" "-") "1"
                 (S754_finite false 4503599627370496 (-51))]
  ∧ twice.2 = Ok ()
  ∧ ∃ doubled,
      int_mul_float 2 (S754_finite false 4503599627370496 (-51)) = Ok doubled
      ∧ read_rows twice.1 catalog_path
        = kept ++ [card_cells kind_repr repriced
                     (replace "Artifact — Equipment" "—" "-") "2" doubled].
Proof.
  eapply (add_card_data_to_csv_twice (RT := decimal_runtime) kind_repr
            (service repriced_card) (service repriced_card)
            {[ catalog_path := other_ledger ]} catalog_path "c1"
            repriced "c1" "Artifact — Equipment"
            (S754_finite false 4503599627370496 (-51)) repriced_card).
  - repeat constructor.
    + exists "c0"%string. split; [reflexivity|discriminate].
    + refine (bool_decide_unpack _ _). vm_compute. exact I.
  - reflexivity.
  - reflexivity.
  - eexists. reflexivity.
  - reflexivity.
  - reflexivity.
  - reflexivity.
  - reflexivity.
  - reflexivity.
  - reflexivity.
  - reflexivity.
Defined.

(** The type line of the new row is not the one of the card data: its em
    dash has become a hyphen. *)
Lemma add_card_data_to_csv_type_line_differs :
  let once := add_card_data_to_csv (RT := decimal_runtime) kind_repr
                (service repriced_card) ∅ catalog_path "c1" in
  card_field repriced (PStr "") "type_line" = PStr "Artifact — Equipment"
  ∧ once.2 = Ok ()
  ∧ (read_rows once.1 catalog_path !! 0%nat) ≫= (λ r, r !! "type_line")
    = Some "Artifact - Equipment"%string
  ∧ (read_rows once.1 catalog_path !! 0%nat) ≫= (λ r, r !! "type_line")
    ≠ Some "Artifact — Equipment"%string.
Proof. vm_compute. repeat split; discriminate. Qed.



(* ===================================================================== *)
(** * Part III: further properties of the code                           *)
(* ===================================================================== *)

(** ** Image normaliser *)

Lemma nearest_neighbour_shape (img : image) (w h : nat) :
  has_shape (nearest_neighbour img w h) h w.
Proof.
  unfold nearest_neighbour, has_shape. split.
  - by rewrite length_map, length_seq.
  - apply Forall_forall. intros r Hr. apply list_elem_of_In, in_map_iff in Hr.
    destruct Hr as (i & <- & _). by rewrite length_map, length_seq.
Qed.

(** A window never leaves the array it is cut from. *)
Lemma slice_bounds_within (start stop : Z) (len : nat) :
  ((slice_bounds start stop (Z.of_nat len)).1
   + (slice_bounds start stop (Z.of_nat len)).2 ≤ len)%nat.
Proof.
  unfold slice_bounds. cbn [fst snd].
  destruct (Z.ltb_spec start 0), (Z.ltb_spec stop 0); lia.
Qed.

Lemma broadcast_length {A} (l l' : list A) (n : nat) :
  broadcast l n = Ok l' → length l' = n.
Proof.
  unfold broadcast. case_decide; [by intros [= <-]|].
  destruct l as [|x [|y l]]; try done. intros [= <-]. apply length_replicate.
Qed.

Lemma setitem_window_shape (canvas value out : image) (H W : nat) (r0 r1 c0 c1 : Z) :
  has_shape canvas H W → width canvas = Z.of_nat (if H is O then O else W) →
  setitem_window canvas r0 r1 c0 c1 value = Ok out →
  has_shape out H W.
Proof.
  intros Hc Hw. unfold setitem_window.
  assert (Hh : height canvas = Z.of_nat H) by (unfold height; by rewrite (proj1 Hc)).
  rewrite Hh, Hw.
  pose proof (slice_bounds_within r0 r1 H) as Hr.
  pose proof (slice_bounds_within c0 c1 (if H is O then O else W)) as Hcl.
  destruct (slice_bounds r0 r1 (Z.of_nat H)) as [top h].
  destruct (slice_bounds c0 c1 _) as [col w]. cbn [fst snd] in Hr, Hcl.
  destruct (broadcast value h) as [rows|] eqn:Hb; [|done].
  cbn [mbind result_bind]. apply broadcast_length in Hb.
  set (each := fix each (rs : image) : result image :=
                 match rs with
                 | [] => Ok []
                 | r :: rs' => r' ← broadcast r w; t ← each rs'; Ok (r' :: t)
                 end).
  assert (Heach : ∀ rs rs', each rs = Ok rs' → has_shape rs' (length rs) w).
  { induction rs as [|r rs IH]; intros rs'; simpl.
    - intros [= <-]. by split.
    - destruct (broadcast r w) as [r'|] eqn:Hr'; cbn [mbind result_bind]; [|done].
      destruct (each rs) as [t|]; cbn [mbind result_bind]; [|done]. intros [= <-].
      destruct (IH t eq_refl) as [H1 H2]. split; [simpl; by rewrite H1|].
      constructor; [by apply broadcast_length in Hr'|done]. }
  destruct (each rows) as [rows'|] eqn:He; [|done].
  cbn [mbind result_bind]. intros [= <-].
  apply Heach in He. rewrite Hb in He.
  destruct H as [|H'].
  - destruct Hc as [Hc1 Hc2]. destruct canvas; [|done].
    assert (h = 0)%nat as -> by lia. destruct He as [He1 _].
    destruct rows'; [|done]. unfold paste. simpl. rewrite take_nil, drop_nil. by split.
  - eapply paste_shape; [exact Hc|exact He|lia|lia].
Qed.

Lemma np_full_white_shape (n : Z) (blank : image) :
  np_full_white n = Ok blank →
  has_shape blank (Z.to_nat n) (Z.to_nat n)
  ∧ width blank = Z.of_nat (if Z.to_nat n is O then O else Z.to_nat n).
Proof.
  unfold np_full_white. destruct (n <? 0); [done|]. intros [= <-]. split.
  - split; [apply length_replicate|]. apply Forall_replicate, length_replicate.
  - destruct (Z.to_nat n) as [|k] eqn:E; [done|]. simpl. by rewrite length_replicate.
Qed.

(** The shape of a canvas that [resize_with_padding] returned, read off
    the last two statements of the function. *)
Ltac canvas_shape :=
  unfold resize_with_padding;
  repeat match goal with
    | |- context [mbind _ ?m] =>
        lazymatch m with
        | mbind _ _ => fail
        | _ => destruct m eqn:?; cbn [mbind result_bind]; [|done]
        end
    end;
  match goal with
  | Hb : np_full_white _ = Ok _ |- _ =>
      destruct (np_full_white_shape _ _ Hb); by apply setitem_window_shape
  end.

(** X2: Whatever OpenCV's sampling returns, a canvas that comes back has
    [target_size] rows of [target_size] pixels. *)
Theorem resize_with_padding_shape (interp : image → nat → nat → image)
    (img canvas : image) (target_size : Z) :
  resize_with_padding interp img target_size = Ok canvas →
  has_shape canvas (Z.to_nat target_size) (Z.to_nat target_size).
Proof. canvas_shape. Qed.

Lemma resize_with_padding_shape_witness :
  has_shape (paste (replicate 4 (replicate 4 white))
               (nearest_neighbour short_strip 4 2) 1 0)
    (Z.to_nat 4) (Z.to_nat 4).
Proof.
  apply (resize_with_padding_shape nearest_neighbour short_strip _ 4).
  reflexivity.
Defined.

(** X6: An embedding that comes back is what the model answered for a canvas
    of 224 by 224 pixels cut from the decoded file: the model is never
    shown an image of another size. *)
Theorem embed_image_canvas (W : world) (img_path : string)
    (embedding : list float) :
  embed_image W img_path = Ok embedding →
  ∃ decoded padded,
    imread W img_path = Some decoded
    ∧ resize_with_padding (interp W) decoded 224 = Ok padded
    ∧ has_shape padded 224 224
    ∧ predict W padded = Ok embedding.
Proof.
  unfold embed_image, preprocess_image_with_padding.
  destruct (imread W img_path) as [decoded|]; [|done]. cbn [fst].
  destruct (resize_with_padding (interp W) decoded 224) as [padded|] eqn:Hp;
    cbn [mbind result_bind]; [|done].
  intros Hv. exists decoded, padded. split; [done|]. split; [done|].
  split; [|done]. revert Hp. canvas_shape.
Qed.

Lemma embed_image_canvas_witness :
  ∃ decoded padded,
    imread (sample_world []) "cards/a.jpg" = Some decoded
    ∧ resize_with_padding (interp (sample_world [])) decoded 224 = Ok padded
    ∧ has_shape padded 224 224
    ∧ predict (sample_world []) padded = Ok [S754_zero false].
Proof.
  apply (embed_image_canvas (sample_world []) "cards/a.jpg" [S754_zero false]).
  vm_compute. reflexivity.
Defined.

(** X4: When a scaled dimension is zero or less OpenCV is handed an empty
    size and the normaliser raises its error. *)
Theorem resize_with_padding_degenerate (interp : image → nat → nat → image)
    (img : image) (target_size new_w new_h : Z) (sh sw : float) :
  int_truediv target_size (height img) = Ok sh →
  int_truediv target_size (width img) = Ok sw →
  scaled (width img) (float_min sh sw) = Ok new_w →
  scaled (height img) (float_min sh sw) = Ok new_h →
  new_w ≤ 0 ∨ new_h ≤ 0 →
  resize_with_padding interp img target_size = Raise CvError.
Proof.
  intros Hsh Hsw Hnw Hnh Hz. unfold resize_with_padding.
  rewrite Hsh. cbn [mbind result_bind]. rewrite Hsw. cbn [mbind result_bind].
  rewrite Hnw. cbn [mbind result_bind]. rewrite Hnh. cbn [mbind result_bind].
  unfold cv2_resize.
  destruct ((height img <=? 0) || (width img <=? 0)); [done|].
  destruct (Z.leb_spec new_w 0), (Z.leb_spec new_h 0); try done. lia.
Qed.

Lemma resize_with_padding_degenerate_witness :
  resize_with_padding nearest_neighbour tall_strip 224 = Raise CvError.
Proof.
  eapply (resize_with_padding_degenerate nearest_neighbour tall_strip 224 0 224).
  - reflexivity.
  - reflexivity.
  - reflexivity.
  - reflexivity.
  - left. lia.
Defined.

Lemma int_truediv_zero (n : Z) :
  0 ≤ n →
  int_truediv 0 n = Raise ZeroDivisionError ∨ int_truediv 0 n = Ok (S754_zero false).
Proof.
  intros Hn. unfold int_truediv. destruct (n =? 0); [by left|]. right.
  cbn [Z.abs]. by rewrite (proj2 (Z.ltb_ge n 0) Hn).
Qed.

Lemma scaled_by_zero (n : Z) :
  scaled n (S754_zero false) = Ok 0 ∨ ∃ e, scaled n (S754_zero false) = Raise e.
Proof.
  unfold scaled, int_mul_float.
  destruct (float_of_int n) as [[| | |]|]; cbn; eauto.
Qed.

(** X5: A target size of 0 never gives a canvas, whatever the image. *)
Theorem resize_with_padding_zero_target (interp : image → nat → nat → image)
    (img : image) :
  ∃ e, resize_with_padding interp img 0 = Raise e.
Proof.
  unfold resize_with_padding.
  destruct (int_truediv_zero (height img)) as [->| ->];
    [unfold height; lia|by eexists|]. cbn [mbind result_bind].
  destruct (int_truediv_zero (width img)) as [->| ->];
    [unfold width; destruct img; lia|by eexists|]. cbn [mbind result_bind].
  change (float_min (S754_zero false) (S754_zero false)) with (S754_zero false).
  destruct (scaled_by_zero (width img)) as [->|[e ->]];
    cbn [mbind result_bind]; [|by eexists].
  destruct (scaled_by_zero (height img)) as [->|[e ->]];
    cbn [mbind result_bind]; [|by eexists].
  unfold cv2_resize. destruct (_ || _); cbn; by eexists.
Qed.

Lemma resize_with_padding_canvas_witness :
  ∃ canvas,
    resize_with_padding nearest_neighbour short_strip 4 = Ok canvas
    ∧ has_shape canvas (Z.to_nat 4) (Z.to_nat 4)
    ∧ ∀ i j : nat, Z.of_nat i < 4 → Z.of_nat j < 4 →
        pixel_at canvas i j
        = if decide (((4 - 2) `div` 2 ≤ Z.of_nat i < (4 - 2) `div` 2 + 2)
                     ∧ ((4 - 4) `div` 2 ≤ Z.of_nat j < (4 - 4) `div` 2 + 4))
          then pixel_at (nearest_neighbour short_strip (Z.to_nat 4) (Z.to_nat 2))
                 (i - Z.to_nat ((4 - 2) `div` 2)) (j - Z.to_nat ((4 - 4) `div` 2))
          else Some white.
Proof.
  eapply (resize_with_padding_canvas nearest_neighbour short_strip 4 4 2).
  - reflexivity.
  - reflexivity.
  - reflexivity.
  - reflexivity.
  - reflexivity.
  - reflexivity.
  - lia.
  - lia.
  - apply nearest_neighbour_shape.
Defined.

Lemma paste_row_full (dst src : list pixel) :
  length src = length dst → paste_row dst src 0 = src.
Proof.
  intros H. unfold paste_row. rewrite take_0, H. simpl.
  by rewrite drop_all, app_nil_r.
Qed.

Lemma paste_full (canvas value : image) (n : nat) :
  has_shape canvas n n → has_shape value n n → paste canvas value 0 0 = value.
Proof.
  intros [Hc1 Hc2] [Hv1 Hv2]. apply list_eq. intros i.
  rewrite paste_lookup by lia. rewrite Nat.sub_0_r.
  case_decide as Hi.
  - destruct (lookup_lt_is_Some_2 canvas i ltac:(lia)) as [dst Hd].
    destruct (lookup_lt_is_Some_2 value i ltac:(lia)) as [src Hs].
    rewrite Hd, Hs. simpl. rewrite paste_row_full; [done|].
    pose proof (proj1 (Forall_lookup _ _) Hc2 _ _ Hd).
    pose proof (proj1 (Forall_lookup _ _) Hv2 _ _ Hs). simpl in *. congruence.
  - rewrite !lookup_ge_None_2; [done|lia|lia].
Qed.

(** X3: An image whose scaled dimensions are both the target gets no padding:
    the canvas is the resized content itself. *)
Theorem resize_with_padding_exact_fit (interp : image → nat → nat → image)
    (img : image) (target_size : Z) (sh sw : float) :
  0 < height img → 0 < width img → 1 ≤ target_size →
  int_truediv target_size (height img) = Ok sh →
  int_truediv target_size (width img) = Ok sw →
  scaled (width img) (float_min sh sw) = Ok target_size →
  scaled (height img) (float_min sh sw) = Ok target_size →
  let resized := interp img (Z.to_nat target_size) (Z.to_nat target_size) in
  has_shape resized (Z.to_nat target_size) (Z.to_nat target_size) →
  resize_with_padding interp img target_size = Ok resized.
Proof.
  intros Hh Hw HS Hsh Hsw Hnw Hnh resized Hres.
  unfold resize_with_padding. rewrite Hsh. cbn [mbind result_bind].
  rewrite Hsw. cbn [mbind result_bind]. rewrite Hnw. cbn [mbind result_bind].
  rewrite Hnh. cbn [mbind result_bind]. unfold cv2_resize.
  destruct (Z.leb_spec (height img) 0); [lia|].
  destruct (Z.leb_spec (width img) 0); [lia|].
  destruct (Z.leb_spec target_size 0); [lia|].
  cbn [orb mbind result_bind]. unfold np_full_white.
  destruct (Z.ltb_spec target_size 0); [lia|]. cbn [mbind result_bind].
  fold resized. rewrite Z.sub_diag. change (0 `div` 2) with 0. rewrite Z.add_0_l.
  set (n := Z.to_nat target_size) in *.
  set (blank := replicate n (replicate n white)).
  assert (Hblank : has_shape blank n n).
  { split; [apply length_replicate|]. apply Forall_replicate, length_replicate. }
  pose proof (setitem_window_shaped blank resized n n n n 0 0 Hblank Hres
                ltac:(lia) ltac:(lia) ltac:(lia)) as Hset.
  change (Z.of_nat 0) with 0 in Hset. rewrite !Z.add_0_l in Hset.
  replace (Z.of_nat n) with target_size in Hset by lia.
  rewrite Hset. f_equal. by apply (paste_full _ _ n).
Qed.

Lemma resize_with_padding_exact_fit_witness :
  resize_with_padding nearest_neighbour full_size 224
  = Ok (nearest_neighbour full_size (Z.to_nat 224) (Z.to_nat 224)).
Proof.
  eapply (resize_with_padding_exact_fit nearest_neighbour full_size 224).
  - reflexivity.
  - reflexivity.
  - lia.
  - reflexivity.
  - reflexivity.
  - reflexivity.
  - reflexivity.
  - apply nearest_neighbour_shape.
Defined.

(** ** Batch ingestion *)

Section AnyWorld.
Variable W : world.
Variables (image_dir : string) (batch_size : Z) (namespace : string).

#[local] Abbreviation step := (process_image W image_dir batch_size namespace).
#[local] Abbreviation run := (foldl (process_image W image_dir batch_size namespace)).

#[local] Abbreviation sound all := (sound_call W image_dir namespace all).

Lemma process_image_sound (all : list string) st x :
  x ∈ all →
  Forall (sound all) (calls st) →
  Forall (listed W image_dir all) (batch st) →
  Forall (sound all) (calls (step st x))
  ∧ Forall (listed W image_dir all) (batch (step st x)).
Proof.
  intros Hx Hc Hb. unfold process_image.
  destruct (embed_image W (os_path_join image_dir x)) as [v|e] eqn:Ev; [|done].
  assert (Hb1 : Forall (listed W image_dir all)
                  (batch st ++ [{| vec_id := x; vec_values := v |}])).
  { apply Forall_app. split; [done|]. apply Forall_cons. split; [|constructor].
    by split. }
  assert (Hc1 : Forall (sound all)
                  (calls st ++ [{| call_vectors := batch st ++ [{| vec_id := x; vec_values := v |}];
                                   call_namespace := namespace |}])).
  { apply Forall_app. split; [done|]. apply Forall_cons. split; [|constructor].
    split; [simpl; by destruct (batch st)|by split]. }
  destruct (_ <=? _); [|done].
  destruct (index_upsert W _ _); simpl; split; done.
Qed.

Lemma run_sound (all : list string) l st :
  l ⊆ all →
  Forall (sound all) (calls st) →
  Forall (listed W image_dir all) (batch st) →
  Forall (sound all) (calls (run st l))
  ∧ Forall (listed W image_dir all) (batch (run st l)).
Proof.
  revert st. induction l as [|x l IH]; intros st Hl Hc Hb; simpl; [done|].
  destruct (process_image_sound all st x) as [Hc' Hb']; [|done|done|].
  - apply Hl. by left.
  - apply IH; [|done|done]. intros y Hy. apply Hl. by right.
Qed.

Lemma ingest_entries_sound (entries : list string) :
  Forall (sound entries)
    (calls (ingest_entries W image_dir batch_size namespace entries).1).
Proof.
  unfold ingest_entries, flush_remaining.
  destruct (run_sound entries entries initial) as [Hc Hb]; [done|constructor..|].
  destruct (batch (run initial entries)) as [|v b] eqn:Eb; [done|].
  assert (Forall (sound entries)
            (calls (run initial entries)
               ++ [{| call_vectors := v :: b; call_namespace := namespace |}])).
  { apply Forall_app. split; [done|]. apply Forall_cons. split; [|constructor].
    by split. }
  by destruct (index_upsert W _ _).
Qed.

Lemma process_image_held st x :
  (∀ v, held st v → held (step st x) v)
  ∧ ∀ e, embed_image W (os_path_join image_dir x) = Ok e →
         held (step st x) {| vec_id := x; vec_values := e |}.
Proof.
  unfold held, process_image, upserted.
  destruct (embed_image W (os_path_join image_dir x)) as [v|err] eqn:Ev;
    [|split; [done|by intros]].
  destruct (_ <=? _).
  - destruct (index_upsert W _ _) as [?|ex]; simpl; rewrite map_app, concat_app; simpl;
      rewrite app_nil_r; split.
    + intros u [Hu|Hu]; left; rewrite !elem_of_app; tauto.
    + intros emb [= <-]. left. rewrite !elem_of_app. right. right. by left.
    + intros u [Hu|Hu]; [left|right]; rewrite !elem_of_app; tauto.
    + intros emb [= <-]. right. rewrite elem_of_app. right. by left.
  - simpl. split.
    + intros u [Hu|Hu]; [by left|right]. rewrite elem_of_app. by left.
    + intros emb [= <-]. right. rewrite elem_of_app. right. by left.
Qed.

Lemma run_held l st :
  (∀ v, held st v → held (run st l) v)
  ∧ ∀ x e, x ∈ l → embed_image W (os_path_join image_dir x) = Ok e →
           held (run st l) {| vec_id := x; vec_values := e |}.
Proof.
  revert st. induction l as [|x l IH]; intros st; simpl.
  - split; [done|]. intros x e Hx. by apply elem_of_nil in Hx.
  - destruct (IH (step st x)) as [IH1 IH2].
    destruct (process_image_held st x) as [H1 H2]. split.
    + intros v Hv. by apply IH1, H1.
    + intros y e Hy He. apply elem_of_cons in Hy as [->|Hy].
      * by apply IH1, H2.
      * by apply IH2.
Qed.

Lemma flush_remaining_held st v :
  held st v → v ∈ upserted (calls (flush_remaining W namespace st).1).
Proof.
  unfold held, flush_remaining. intros Hv.
  destruct (batch st) as [|u b] eqn:Eb.
  - destruct Hv as [Hv|Hv]; [done|by apply elem_of_nil in Hv].
  - assert (v ∈ upserted (calls st ++ [{| call_vectors := u :: b;
                                          call_namespace := namespace |}])).
    { unfold upserted in *. rewrite map_app, concat_app. simpl.
      rewrite app_nil_r, elem_of_app. tauto. }
    by destruct (index_upsert W _ _).
Qed.

End AnyWorld.

(** X7: No call to the index is empty, and every call carries the namespace the
    run was given: whatever the collaborators answer, and for any batch
    size. *)
Theorem batch_upsert_embeddings_calls_well_formed
    (W : world) (image_dir : string) (batch_size : Z) (namespace : string) :
  Forall (λ c, call_vectors c ≠ [] ∧ call_namespace c = namespace)
    (calls (batch_upsert_embeddings W image_dir batch_size namespace).1).
Proof.
  unfold batch_upsert_embeddings.
  destruct (listdir W image_dir) as [entries|]; [|constructor].
  eapply Forall_impl; [apply ingest_entries_sound|].
  intros c (H1 & H2 & _). by split.
Qed.

(** X8: The index is only ever sent what the model answered for a listed file:
    each vector of each call names an entry of the directory and holds the
    embedding of that file. *)
Theorem batch_upsert_embeddings_sends_embeddings
    (W : world) (image_dir : string) (batch_size : Z) (namespace : string)
    (entries : list string) :
  listdir W image_dir = Ok entries →
  Forall (λ c, Forall (λ v, vec_id v ∈ entries
                            ∧ embed_image W (os_path_join image_dir (vec_id v))
                              = Ok (vec_values v))
            (call_vectors c))
    (calls (batch_upsert_embeddings W image_dir batch_size namespace).1).
Proof.
  intros Hls. unfold batch_upsert_embeddings. rewrite Hls.
  eapply Forall_impl; [apply ingest_entries_sound|].
  intros c (_ & _ & H). eapply Forall_impl; [exact H|].
  intros v [Hg Hin]. by split.
Qed.

Lemma batch_upsert_embeddings_sends_embeddings_witness :
  Forall (λ c, Forall (λ v, vec_id v ∈ ["a.jpg"; "bad.jpg"; "c.jpg"]
                            ∧ embed_image (flaky_world ["a.jpg"; "bad.jpg"; "c.jpg"])
                                (os_path_join "cards" (vec_id v))
                              = Ok (vec_values v))
            (call_vectors c))
    (calls (batch_upsert_embeddings (flaky_world ["a.jpg"; "bad.jpg"; "c.jpg"])
              "cards" 1 "mtg_cards").1).
Proof.
  apply (batch_upsert_embeddings_sends_embeddings
           (flaky_world ["a.jpg"; "bad.jpg"; "c.jpg"]) "cards" 1 "mtg_cards").
  reflexivity.
Defined.



(** X10: While the index accepts every call, the vectors reach it in the order
    of the listing, each once, and the run ends normally. *)
Theorem batch_upsert_embeddings_in_order
    (W : world) (image_dir : string) (batch_size : Z) (namespace : string)
    (entries : list string) :
  listdir W image_dir = Ok entries →
  (∀ h c, index_upsert W h c = Ok ()) →
  upserted (calls (batch_upsert_embeddings W image_dir batch_size namespace).1)
  = embedded W image_dir entries
  ∧ (batch_upsert_embeddings W image_dir batch_size namespace).2 = Ok ().
Proof.
  intros Hls Hidx. unfold batch_upsert_embeddings. rewrite Hls.
  by apply ingest_entries_upserted.
Qed.

Lemma batch_upsert_embeddings_in_order_witness :
  upserted (calls (batch_upsert_embeddings
                     (sample_world ["a.jpg"; "bad.jpg"; "c.jpg"])
                     "cards" 2 "mtg_cards").1)
  = embedded (sample_world ["a.jpg"; "bad.jpg"; "c.jpg"]) "cards"
      ["a.jpg"; "bad.jpg"; "c.jpg"]
  ∧ (batch_upsert_embeddings (sample_world ["a.jpg"; "bad.jpg"; "c.jpg"])
       "cards" 2 "mtg_cards").2 = Ok ().
Proof.
  apply (batch_upsert_embeddings_in_order
           (sample_world ["a.jpg"; "bad.jpg"; "c.jpg"]) "cards" 2 "mtg_cards"
           ["a.jpg"; "bad.jpg"; "c.jpg"]).
  - reflexivity.
  - reflexivity.
Defined.

Lemma batch_upsert_embeddings_exactly_once_witness :
  times_sent "c.jpg"
    (calls (batch_upsert_embeddings (sample_world ["a.jpg"; "bad.jpg"; "c.jpg"])
              "cards" 2 "mtg_cards").1)
  = 1%nat.
Proof.
  apply (batch_upsert_embeddings_exactly_once
           (sample_world ["a.jpg"; "bad.jpg"; "c.jpg"]) "cards" 2 "mtg_cards"
           ["a.jpg"; "bad.jpg"; "c.jpg"] "c.jpg").
  - reflexivity.
  - reflexivity.
  - apply NoDup_ListNoDup. repeat constructor; simpl; intuition discriminate.
  - apply list_elem_of_In. simpl. tauto.
  - vm_compute. reflexivity.
Defined.

Section AcceptingIndex.
Variable W : world.
Variables (image_dir : string) (batch_size : Z) (namespace : string).
Hypothesis index_ok : ∀ h c, index_upsert W h c = Ok ().

#[local] Abbreviation step := (process_image W image_dir batch_size namespace).
#[local] Abbreviation run := (foldl (process_image W image_dir batch_size namespace)).

(** The step on an entry that embeds, while the index accepts. *)
Lemma process_image_ok st x v :
  embed_image W (os_path_join image_dir x) = Ok v →
  let b1 := batch st ++ [{| vec_id := x; vec_values := v |}] in
  step st x
  = if batch_size <=? Z.of_nat (length b1)
    then {| batch := [];
            calls := calls st ++ [{| call_vectors := b1; call_namespace := namespace |}];
            stdout := stdout st ++ [Upserted_batch batch_size] |}
    else {| batch := b1; calls := calls st; stdout := stdout st |}.
Proof.
  intros Ev b1. unfold process_image. rewrite Ev. fold b1.
  destruct (_ <=? _); [|done]. by rewrite index_ok.
Qed.

(** As [run_full_batches], with entries that may fail to embed: only those
    that embed count. *)
Lemma run_batches l st (q : nat) :
  1 ≤ batch_size →
  sizes (calls st) = replicate q batch_size →
  Z.of_nat (length (batch st)) < batch_size →
  ∃ q' : nat,
    sizes (calls (run st l)) = replicate q' batch_size
    ∧ Z.of_nat (length (batch (run st l))) < batch_size
    ∧ Z.of_nat q' * batch_size + Z.of_nat (length (batch (run st l)))
      = Z.of_nat q * batch_size + Z.of_nat (length (batch st))
        + Z.of_nat (length (embedded W image_dir l)).
Proof.
  intros HB. revert st q. induction l as [|x l IH]; intros st q Hs Hb.
  - exists q. split; [done|]. split; [done|]. simpl length. lia.
  - simpl foldl. cbn [embedded flat_map]. fold (embedded W image_dir l).
    destruct (embed_image W (os_path_join image_dir x)) as [v|e] eqn:Ev.
    + rewrite (process_image_ok st x v Ev). cbv zeta.
      set (b1 := batch st ++ [{| vec_id := x; vec_values := v |}]).
      assert (Hb1 : Z.of_nat (length b1) = Z.of_nat (length (batch st)) + 1)
        by (unfold b1; rewrite length_app; simpl; lia).
      rewrite length_app. cbn [length].
      destruct (Z.leb_spec batch_size (Z.of_nat (length b1))) as [Hfull|Hnot].
      * destruct (IH {| batch := [];
                        calls := calls st ++ [{| call_vectors := b1; call_namespace := namespace |}];
                        stdout := stdout st ++ [Upserted_batch batch_size] |} (S q))
          as (q' & H1 & H2 & H3).
        -- cbn [calls]. unfold sizes in *. rewrite map_app, Hs.
           cbn [map call_vectors].
           replace (Z.of_nat (length b1)) with batch_size by lia.
           by rewrite replicate_S_end.
        -- cbn [batch length]. lia.
        -- exists q'. split; [exact H1|]. split; [exact H2|].
           rewrite H3. cbn [batch length]. lia.
      * destruct (IH {| batch := b1; calls := calls st; stdout := stdout st |} q)
          as (q' & H1 & H2 & H3); [done|cbn [batch]; lia|].
        exists q'. split; [exact H1|]. split; [exact H2|].
        rewrite H3. cbn [batch]. lia.
    + rewrite (process_image_raise W image_dir batch_size namespace st x e Ev).
      destruct (IH {| batch := batch st; calls := calls st;
                      stdout := stdout st ++ [Error_processing x e] |} q)
        as (q' & H1 & H2 & H3); [done|done|].
      exists q'. split; [exact H1|]. split; [exact H2|].
      rewrite H3. cbn [batch app length]. lia.
Qed.

(** With a batch size of 1 or less nothing waits: each vector is sent as
    soon as it is embedded, alone. *)
Lemma run_singletons l st :
  batch_size ≤ 1 → batch st = [] →
  batch (run st l) = []
  ∧ map call_vectors (calls (run st l))
    = map call_vectors (calls st) ++ map (λ v, [v]) (embedded W image_dir l).
Proof.
  intros HB. revert st. induction l as [|x l IH]; intros st Hb.
  - simpl. by rewrite app_nil_r.
  - simpl foldl. cbn [embedded flat_map]. fold (embedded W image_dir l).
    destruct (embed_image W (os_path_join image_dir x)) as [v|e] eqn:Ev.
    + rewrite (process_image_ok st x v Ev). cbv zeta. rewrite Hb. cbn [app length].
      destruct (Z.leb_spec batch_size (Z.of_nat 1)) as [_|?]; [|lia].
      destruct (IH {| batch := [];
                      calls := calls st ++ [{| call_vectors := [{| vec_id := x; vec_values := v |}];
                                               call_namespace := namespace |}];
                      stdout := stdout st ++ [Upserted_batch batch_size] |} eq_refl)
        as [H1 H2].
      split; [exact H1|]. rewrite H2. cbn [calls]. rewrite map_app.
      cbn [map call_vectors app]. by rewrite <- app_assoc.
    + rewrite (process_image_raise W image_dir batch_size namespace st x e Ev).
      destruct (IH {| batch := batch st; calls := calls st;
                      stdout := stdout st ++ [Error_processing x e] |} Hb)
        as [H1 H2].
      split; [exact H1|]. by rewrite H2.
Qed.

(** The error lines of the output are those of the entries that do not
    embed. *)
Lemma run_errors l st :
  List.filter is_error (stdout (run st l))
  = List.filter is_error (stdout st) ++ failures W image_dir l.
Proof.
  revert st. induction l as [|x l IH]; intros st.
  - simpl. by rewrite app_nil_r.
  - simpl foldl. cbn [failures flat_map]. fold (failures W image_dir l).
    rewrite IH.
    destruct (embed_image W (os_path_join image_dir x)) as [v|e] eqn:Ev.
    + rewrite (process_image_ok st x v Ev). cbv zeta.
      destruct (_ <=? _); cbn [stdout]; [|done].
      rewrite List.filter_app. simpl. by rewrite app_nil_r.
    + rewrite (process_image_raise W image_dir batch_size namespace st x e Ev).
      cbn [stdout]. rewrite List.filter_app. simpl. by rewrite <- app_assoc.
Qed.

End AcceptingIndex.

(** X12: With entries that fail to embed among the others, the calls are those
    of the M entries that embed: full batches of B, then the M mod B that
    remain, if any. *)
Theorem batch_upsert_embeddings_sizes_among_failures
    (W : world) (image_dir : string) (batch_size : Z) (namespace : string)
    (entries : list string) :
  listdir W image_dir = Ok entries →
  1 ≤ batch_size →
  (∀ h c, index_upsert W h c = Ok ()) →
  let m := Z.of_nat (length (embedded W image_dir entries)) in
  sizes (calls (batch_upsert_embeddings W image_dir batch_size namespace).1)
  = replicate (Z.to_nat (m `div` batch_size)) batch_size
      ++ (if m `mod` batch_size =? 0 then [] else [m `mod` batch_size]).
Proof.
  intros Hls HB Hidx m. unfold batch_upsert_embeddings. rewrite Hls.
  destruct (run_batches W image_dir batch_size namespace Hidx entries initial 0 HB)
    as (q & H1 & H2 & H3); [done|simpl; lia|].
  simpl in H3. fold m in H3.
  unfold ingest_entries, flush_remaining.
  set (s := foldl _ initial entries) in *.
  destruct (batch s) as [|v b] eqn:Eb.
  - simpl in H3. cbn [fst].
    assert (Hq : m `div` batch_size = Z.of_nat q)
      by (symmetry; apply (Z.div_unique _ _ _ 0); lia).
    assert (Hr : m `mod` batch_size = 0)
      by (symmetry; apply (Z.mod_unique _ _ (Z.of_nat q)); lia).
    rewrite Hq, Hr, Nat2Z.id, H1. simpl. by rewrite app_nil_r.
  - rewrite Hidx. cbn [fst calls].
    set (r := Z.of_nat (length (v :: b))) in *.
    assert (Hr0 : 0 < r) by (unfold r; simpl; lia).
    assert (Hq : m `div` batch_size = Z.of_nat q)
      by (symmetry; apply (Z.div_unique _ _ _ r); lia).
    assert (Hr : m `mod` batch_size = r)
      by (symmetry; apply (Z.mod_unique _ _ (Z.of_nat q)); lia).
    rewrite Hq, Hr, Nat2Z.id.
    destruct (Z.eqb_spec r 0); [lia|].
    unfold sizes in *. rewrite map_app, H1. done.
Qed.

Lemma batch_upsert_embeddings_sizes_among_failures_witness :
  sizes (calls (batch_upsert_embeddings
                  (sample_world ["a.jpg"; "bad.jpg"; "c.jpg"; "d.jpg"])
                  "cards" 2 "mtg_cards").1)
  = replicate (Z.to_nat (3 `div` 2)) 2 ++ (if 3 `mod` 2 =? 0 then [] else [3 `mod` 2]).
Proof.
  apply (batch_upsert_embeddings_sizes_among_failures
           (sample_world ["a.jpg"; "bad.jpg"; "c.jpg"; "d.jpg"]) "cards" 2 "mtg_cards"
           ["a.jpg"; "bad.jpg"; "c.jpg"; "d.jpg"]).
  - reflexivity.
  - lia.
  - reflexivity.
Defined.

(** X13: With a batch size of 1 or less (0 and negative sizes included) every
    embedded vector is sent at once, in a call of its own, and nothing is
    left for the last flush. *)
Theorem batch_upsert_embeddings_one_by_one
    (W : world) (image_dir : string) (batch_size : Z) (namespace : string)
    (entries : list string) :
  listdir W image_dir = Ok entries →
  batch_size ≤ 1 →
  (∀ h c, index_upsert W h c = Ok ()) →
  map call_vectors (calls (batch_upsert_embeddings W image_dir batch_size namespace).1)
  = map (λ v, [v]) (embedded W image_dir entries)
  ∧ batch (batch_upsert_embeddings W image_dir batch_size namespace).1 = []
  ∧ (batch_upsert_embeddings W image_dir batch_size namespace).2 = Ok ().
Proof.
  intros Hls HB Hidx. unfold batch_upsert_embeddings. rewrite Hls.
  destruct (run_singletons W image_dir batch_size namespace Hidx entries initial HB eq_refl)
    as [H1 H2].
  unfold ingest_entries, flush_remaining. rewrite H1. cbn [fst snd].
  by rewrite H1, H2.
Qed.

Lemma batch_upsert_embeddings_one_by_one_witness :
  map call_vectors (calls (batch_upsert_embeddings
                             (sample_world ["a.jpg"; "bad.jpg"; "c.jpg"])
                             "cards" 0 "mtg_cards").1)
  = map (λ v, [v]) (embedded (sample_world ["a.jpg"; "bad.jpg"; "c.jpg"]) "cards"
                      ["a.jpg"; "bad.jpg"; "c.jpg"])
  ∧ batch (batch_upsert_embeddings (sample_world ["a.jpg"; "bad.jpg"; "c.jpg"])
             "cards" 0 "mtg_cards").1 = []
  ∧ (batch_upsert_embeddings (sample_world ["a.jpg"; "bad.jpg"; "c.jpg"])
       "cards" 0 "mtg_cards").2 = Ok ().
Proof.
  apply (batch_upsert_embeddings_one_by_one
           (sample_world ["a.jpg"; "bad.jpg"; "c.jpg"]) "cards" 0 "mtg_cards"
           ["a.jpg"; "bad.jpg"; "c.jpg"]).
  - reflexivity.
  - lia.
  - reflexivity.
Defined.

(** X14: While the index accepts every call, the errors printed are those of
    the entries that do not embed, one line each, in listing order. *)
Theorem batch_upsert_embeddings_reports_failures
    (W : world) (image_dir : string) (batch_size : Z) (namespace : string)
    (entries : list string) :
  listdir W image_dir = Ok entries →
  (∀ h c, index_upsert W h c = Ok ()) →
  List.filter is_error
    (stdout (batch_upsert_embeddings W image_dir batch_size namespace).1)
  = failures W image_dir entries.
Proof.
  intros Hls Hidx. unfold batch_upsert_embeddings. rewrite Hls.
  pose proof (run_errors W image_dir batch_size namespace Hidx entries initial) as H.
  simpl in H. unfold ingest_entries, flush_remaining.
  destruct (batch _); [done|]. rewrite Hidx. cbn [fst stdout].
  rewrite List.filter_app, H. simpl. by rewrite app_nil_r.
Qed.

Lemma batch_upsert_embeddings_reports_failures_witness :
  List.filter is_error
    (stdout (batch_upsert_embeddings (sample_world ["a.jpg"; "bad.jpg"; "c.jpg"])
               "cards" 2 "mtg_cards").1)
  = failures (sample_world ["a.jpg"; "bad.jpg"; "c.jpg"]) "cards"
      ["a.jpg"; "bad.jpg"; "c.jpg"].
Proof.
  apply (batch_upsert_embeddings_reports_failures
           (sample_world ["a.jpg"; "bad.jpg"; "c.jpg"]) "cards" 2 "mtg_cards"
           ["a.jpg"; "bad.jpg"; "c.jpg"]).
  - reflexivity.
  - reflexivity.
Defined.

(** ** Key derivation *)

Lemma split_dotless (s : string) : dotless s → split s "." = [s].
Proof.
  unfold dotless. induction s as [|c s IH]; simpl; [done|].
  intros H. apply Forall_cons in H as [Hc Hs].
  destruct (Ascii.eqb_spec c "."); [done|]. by rewrite IH.
Qed.

Lemma split_first_dot (key rest : string) :
  dotless key → split (key +:+ String "." rest) "." = key :: split rest ".".
Proof.
  unfold dotless. induction key as [|c key IH]; simpl; [done|].
  intros H. apply Forall_cons in H as [Hc Hs].
  destruct (Ascii.eqb_spec c "."); [done|]. by rewrite IH.
Qed.

Lemma split_head (s : string) :
  ∃ key others,
    split s "." = key :: others ∧ dotless key
    ∧ (s = key ∨ ∃ rest, s = key +:+ String "." rest).
Proof.
  induction s as [|c s (key & others & Hs & Hk & Hform)]; simpl.
  - exists "", []. repeat split; [constructor|by left].
  - destruct (Ascii.eqb_spec c ".") as [->|Hc].
    + exists "", (split s "."). repeat split; [constructor|].
      right. by exists s.
    + rewrite Hs. exists (String c key), others. repeat split.
      * by constructor.
      * destruct Hform as [->|[rest ->]]; [by left|right; by exists rest].
Qed.

(** X15: The key of a response is defined exactly when there is a match, and is
    then the text of the first match's id before its first dot. *)
Theorem get_card_id_spec (query_results : query_response) (key : string) :
  get_card_id query_results = Ok key
  ↔ ∃ top others,
      matches query_results = top :: others
      ∧ dotless key
      ∧ (id top = key ∨ ∃ rest, id top = key +:+ "." +:+ rest).
Proof.
  unfold get_card_id, index. split.
  - destruct (matches query_results) as [|top others]; [done|]. simpl.
    destruct (split_head (id top)) as (k & o & Hs & Hk & Hform).
    rewrite Hs. simpl. intros [= <-]. by exists top, others.
  - intros (top & others & -> & Hk & [Hid|[rest Hid]]); simpl; rewrite Hid.
    + by rewrite split_dotless.
    + change (key +:+ "." +:+ rest) with (key +:+ String "." rest).
      by rewrite (split_first_dot key rest Hk).
Qed.

(** X16: From the directory to the key: a file named after a card id without a
    dot, with any extension, is sent to the index under an id from which
    [get_card_id] recovers the card id. *)
Theorem ingested_name_gives_card_id
    (W : world) (image_dir : string) (batch_size : Z) (namespace : string)
    (entries : list string) (card_id ext : string) (embedding : list float)
    (sc : float) :
  listdir W image_dir = Ok entries →
  card_id +:+ "." +:+ ext ∈ entries →
  dotless card_id →
  embed_image W (os_path_join image_dir (card_id +:+ "." +:+ ext)) = Ok embedding →
  ∃ v, v ∈ upserted (calls (batch_upsert_embeddings W image_dir batch_size namespace).1)
       ∧ vec_values v = embedding
       ∧ get_card_id {| matches := [{| id := vec_id v; score := sc |}] |} = Ok card_id.
Proof.
  intros Hls Hx Hk He.
  exists {| vec_id := card_id +:+ "." +:+ ext; vec_values := embedding |}.
  split; [|split; [done|]].
  - unfold batch_upsert_embeddings. rewrite Hls.
    unfold ingest_entries. apply flush_remaining_held.
    by apply (run_held W image_dir batch_size namespace entries initial).
  - unfold get_card_id, index. simpl.
    change (card_id +:+ "." +:+ ext) with (card_id +:+ String "." ext).
    by rewrite (split_first_dot card_id ext Hk).
Qed.

Lemma ingested_name_gives_card_id_witness :
  ∃ v, v ∈ upserted (calls (batch_upsert_embeddings (sample_world ["c1.jpg"; "c2.png"])
                              "cards" 100 "mtg_cards").1)
       ∧ vec_values v = [S754_zero false]
       ∧ get_card_id {| matches := [{| id := vec_id v; score := S754_zero false |}] |}
         = Ok "c2".
Proof.
  apply (ingested_name_gives_card_id (sample_world ["c1.jpg"; "c2.png"]) "cards" 100
           "mtg_cards" ["c1.jpg"; "c2.png"] "c2" "png").
  - reflexivity.
  - apply list_elem_of_In. simpl. tauto.
  - repeat constructor; discriminate.
  - vm_compute. reflexivity.
Defined.

(** ** Catalogue ledger *)

Section LedgerFile.
Context {RT : Runtime}.
Variable repr : pyval → string.

Lemma cell_text_as_read (o : option string) :
  cell_text repr (default (PStr "") (PStr <$> o)) = default "" o.
Proof. by destruct o. Qed.

Lemma dict_to_list_written (row : gmap string pyval) :
  dom row ⊆ list_to_set fieldnames →
  dict_to_list repr row = Ok (written_cells repr row).
Proof. intros H. unfold dict_to_list. by rewrite decide_True. Qed.

Lemma written_cells_as_read (row : gmap string string) :
  written_cells repr (as_read row) = rewritten row.
Proof.
  unfold written_cells, rewritten, as_read. f_equal.
  apply list_fmap_ext. intros _ k _. by rewrite lookup_fmap, cell_text_as_read.
Qed.

Lemma written_cells_lookup (row : gmap string pyval) (k : string) :
  k ∈ fieldnames →
  written_cells repr row !! k = Some (cell_text repr (default (PStr "") (row !! k))).
Proof.
  intros H. unfold fieldnames in H.
  repeat (apply elem_of_cons in H as [->|H]; [reflexivity|]).
  by apply elem_of_nil in H.
Qed.

Lemma written_cells_updated (row : gmap string string) (n : Z) (t : float) :
  written_cells repr (<["total_value" := PFloat t]>
                        (<["number_owned" := PInt n]> (as_read row)))
  = <["total_value" := repr (PFloat t)]>
      (<["number_owned" := str_of_int n]> (rewritten row)).
Proof.
  unfold written_cells, fieldnames. cbn [fmap list_fmap].
  rewrite lookup_insert_eq.
  rewrite (lookup_insert_ne _ "total_value" "number_owned") by done.
  rewrite lookup_insert_eq.
  rewrite !lookup_insert_ne by done.
  unfold as_read. rewrite !lookup_fmap, !cell_text_as_read. reflexivity.
Qed.

Lemma writerows_written (rows : list (gmap string pyval)) :
  Forall (λ r, dom r ⊆ list_to_set fieldnames) rows →
  writerows repr rows = (map (written_cells repr) rows, Ok ()).
Proof.
  induction 1 as [|r rows Hr _ IH]; simpl; [done|].
  by rewrite dict_to_list_written, IH.
Qed.

(** What a successful reconciliation is made of. *)
Lemma reconcile_inv (rows : list (gmap string string)) (card_data : pyval) rows' :
  reconcile rows card_data = Ok rows' →
  ∃ c p,
    extract_fields card_data = Ok c ∧ py_float (cf_price c) = Ok p
    ∧ ((∃ others row rest rid owned n t,
          rows = others ++ row :: rest
          ∧ Forall (λ r, ∃ rid, r !! "id" = Some rid
                                ∧ cell_eq rid (cf_id c) = false) others
          ∧ row !! "id" = Some rid ∧ cell_eq rid (cf_id c) = true
          ∧ row !! "number_owned" = Some owned
          ∧ int_of_str owned = Some n
          ∧ int_mul_float (n + 1) p = Ok t
          ∧ rows' = map as_read others
                      ++ <["total_value" := PFloat t]>
                           (<["number_owned" := PInt (n + 1)]> (as_read row))
                      :: map as_read rest)
       ∨ (Forall (λ r, ∃ rid, r !! "id" = Some rid
                              ∧ cell_eq rid (cf_id c) = false) rows
          ∧ ∃ r, new_row c = Ok r ∧ rows' = map as_read rows ++ [r])).
Proof.
  unfold reconcile. destruct (extract_fields card_data) as [c|] eqn:Hc; [|done].
  cbn [mbind result_bind].
  destruct (update_existing rows (cf_id c) (cf_price c)) as [[upd|]|] eqn:Hu; [| |done];
    cbn [mbind result_bind]; apply update_existing_inv in Hu.
  - intros [= <-].
    destruct Hu as (others & row & rest & rid & owned & n & p & t
                    & -> & Ho & Hid & Heq & Hown & Hn & Hp & Ht & ->).
    exists c, p. split; [done|]. split; [done|]. left.
    by exists others, row, rest, rid, owned, n, t.
  - destruct (new_row c) as [r|] eqn:Hr; [|done]. cbn [mbind result_bind].
    intros [= <-]. unfold new_row in Hr.
    destruct (py_float (cf_price c)) as [p|] eqn:Hp; [|done].
    exists c, p. split; [done|]. split; [done|]. right. split; [done|].
    exists r. split; [|done]. unfold new_row. by rewrite Hp.
Qed.

Lemma new_row_dom (c : card_fields) r :
  new_row c = Ok r → dom r ⊆ list_to_set fieldnames.
Proof.
  unfold new_row. destruct (py_float (cf_price c)); [|done].
  cbn [mbind result_bind]. intros [= <-].
  refine (bool_decide_unpack _ _). vm_compute. exact I.
Qed.

Lemma reconcile_doms (rows : list (gmap string string)) (card_data : pyval) rows' :
  Forall (λ r, dom r ⊆ list_to_set fieldnames) rows →
  reconcile rows card_data = Ok rows' →
  Forall (λ r, dom r ⊆ list_to_set fieldnames) rows'.
Proof.
  intros Hd Hrec.
  assert (Has : ∀ l : list (gmap string string),
             Forall (λ r, dom r ⊆ list_to_set fieldnames) l →
             Forall (λ r : gmap string pyval, dom r ⊆ list_to_set fieldnames)
               (map as_read l)).
  { intros l Hl. apply Forall_fmap. eapply Forall_impl; [exact Hl|].
    intros r Hr. simpl. unfold as_read. by rewrite dom_fmap_L. }
  apply reconcile_inv in Hrec as (c & p & _ & _ & [H|H]).
  - destruct H as (others & row & rest & rid & owned & n & t
                   & -> & _ & _ & _ & _ & _ & _ & ->).
    apply Forall_app in Hd as [Ho Hr]. apply Forall_cons in Hr as [Hrow Hrest].
    apply Forall_app. split; [by apply Has|]. apply Forall_cons. split; [|by apply Has].
    rewrite !dom_insert_L. unfold as_read. rewrite dom_fmap_L.
    repeat apply union_least; [by apply singleton_subseteq_l..|done].
  - destruct H as (_ & r & Hr & ->).
    apply Forall_app. split; [by apply Has|].
    apply Forall_cons. split; [by apply new_row_dom in Hr|constructor].
Qed.

(** On a ledger the writer accepts, the call either raises and leaves the
    file system alone, or writes the reconciled rows. *)
Lemma add_card_data_to_csv_cases http_json
    (fs : gmap string (list (gmap string string))) file_path top_result_id :
  Forall (λ r, dom r ⊆ list_to_set fieldnames) (read_rows fs file_path) →
  (∃ e, add_card_data_to_csv repr http_json fs file_path top_result_id = (fs, Raise e))
  ∨ ∃ card_data rows',
      get_card_details http_json top_result_id = Ok card_data
      ∧ reconcile (read_rows fs file_path) card_data = Ok rows'
      ∧ add_card_data_to_csv repr http_json fs file_path top_result_id
        = (<[file_path := map (written_cells repr) rows']> fs, Ok ()).
Proof.
  intros Hd. unfold add_card_data_to_csv.
  destruct (get_card_details http_json top_result_id) as [cd|e] eqn:Hget;
    cbn [mbind result_bind]; [|left; by exists e].
  destruct (reconcile (read_rows fs file_path) cd) as [rows'|e] eqn:Hrec;
    [|left; by exists e].
  right. exists cd, rows'. split; [done|]. split; [done|].
  by rewrite (writerows_written rows' (reconcile_doms _ _ _ Hd Hrec)).
Qed.

End LedgerFile.

Section LedgerProperties.
Context {RT : Runtime}.
Variable repr : pyval → string.

(** X17: On a ledger whose columns are among the thirteen, a call that raises
    has changed nothing: whatever failed (the service, the card data, a
    cell of the ledger, the price), the file system is the one the call
    started from. *)
Theorem add_card_data_to_csv_all_or_nothing
    (http_json : string → result pyval)
    (fs : gmap string (list (gmap string string)))
    (file_path top_result_id : string) (e : exn) :
  Forall (λ r, dom r ⊆ list_to_set fieldnames) (read_rows fs file_path) →
  (add_card_data_to_csv repr http_json fs file_path top_result_id).2 = Raise e →
  (add_card_data_to_csv repr http_json fs file_path top_result_id).1 = fs.
Proof.
  intros Hd.
  destruct (add_card_data_to_csv_cases repr http_json fs file_path top_result_id Hd)
    as [[e' ->]|(cd & rows' & _ & _ & ->)]; done.
Qed.

(** X18: A ledger with a column of its own is lost: the reconciliation
    succeeds, the file is opened for writing, and the writer raises on the
    first row, leaving a file without rows. *)
Theorem add_card_data_to_csv_foreign_column
    (http_json : string → result pyval)
    (fs : gmap string (list (gmap string string)))
    (file_path top_result_id : string) (card_data : pyval)
    (row0 : gmap string string) (rest : list (gmap string string))
    (rows' : list (gmap string pyval)) :
  read_rows fs file_path = row0 :: rest →
  ¬ dom row0 ⊆ list_to_set fieldnames →
  get_card_details http_json top_result_id = Ok card_data →
  reconcile (row0 :: rest) card_data = Ok rows' →
  add_card_data_to_csv repr http_json fs file_path top_result_id
  = (<[file_path := []]> fs, Raise ValueError).
Proof.
  intros Hread Hbad Hget Hrec. unfold add_card_data_to_csv.
  rewrite Hget, Hread. cbn [mbind result_bind]. rewrite Hrec.
  assert (Hhead : ∃ r tl, rows' = r :: tl ∧ dom row0 ⊆ dom r).
  { apply reconcile_inv in Hrec as (c & p & _ & _ & [H|H]).
    - destruct H as (others & row & rest' & rid & owned & n & t
                     & Heq & _ & _ & _ & _ & _ & _ & ->).
      destruct others as [|o others]; simpl in *; injection Heq as <- _.
      + eexists _, _. split; [done|]. rewrite !dom_insert_L.
        unfold as_read. rewrite dom_fmap_L.
        do 2 (etrans; [|apply union_subseteq_r]). done.
      + eexists _, _. split; [done|]. unfold as_read. by rewrite dom_fmap_L.
    - destruct H as (_ & r & _ & ->). simpl.
      eexists _, _. split; [done|]. unfold as_read. by rewrite dom_fmap_L. }
  destruct Hhead as (r & tl & -> & Hsub). simpl. unfold dict_to_list.
  rewrite decide_False; [done|]. intros H. apply Hbad. by etrans.
Qed.

(** X19: Rows keep their place and their cells: after a successful call no row
    is missing, at most one is new, and every cell of the rows that were
    there, other than the counter and the total, reads as before, stored
    price included. *)
Theorem add_card_data_to_csv_keeps_rows
    (http_json : string → result pyval)
    (fs : gmap string (list (gmap string string)))
    (file_path top_result_id : string) :
  Forall (λ r, dom r ⊆ list_to_set fieldnames) (read_rows fs file_path) →
  (add_card_data_to_csv repr http_json fs file_path top_result_id).2 = Ok () →
  let fs' := (add_card_data_to_csv repr http_json fs file_path top_result_id).1 in
  (length (read_rows fs file_path) ≤ length (read_rows fs' file_path)
   ≤ S (length (read_rows fs file_path)))%nat
  ∧ ∀ j row k,
      read_rows fs file_path !! j = Some row →
      k ∈ fieldnames → k ≠ "number_owned" → k ≠ "total_value" →
      read_rows fs' file_path !! j ≫= (λ r, r !! k) = Some (default "" (row !! k)).
Proof.
  intros Hd Hadd fs'. subst fs'.
  destruct (add_card_data_to_csv_cases repr http_json fs file_path top_result_id Hd)
    as [[e He]|(cd & rows' & _ & Hrec & Hok)]; [by rewrite He in Hadd|].
  rewrite Hok. clear Hadd. cbn [fst].
  set (rows := read_rows fs file_path) in *.
  assert (Hnew : read_rows (<[file_path := map (written_cells repr) rows']> fs) file_path
                 = map (written_cells repr) rows')
    by (unfold read_rows; by rewrite lookup_insert_eq).
  rewrite Hnew. clear Hnew Hok.
  assert (Hkept : ∀ (row : gmap string string) k, k ∈ fieldnames →
            rewritten row !! k = Some (default "" (row !! k))).
  { intros row k Hk. rewrite <- written_cells_as_read with (repr := repr).
    rewrite written_cells_lookup by done. unfold as_read.
    by rewrite lookup_fmap, cell_text_as_read. }
  apply reconcile_inv in Hrec as (c & p & _ & _ & [H|H]).
  - destruct H as (others & row0 & rest & rid & owned & n & t
                   & Hrows & _ & _ & _ & _ & _ & _ & ->).
    rewrite Hrows. split.
    + rewrite length_map, !length_app. simpl. rewrite !length_map. lia.
    + intros j row k Hj Hk Hno Htv.
      rewrite map_app, map_cons, !map_map.
      destruct (decide (j < length others)%nat) as [Hlt|Hge].
      * rewrite lookup_app_l in Hj by done.
        rewrite lookup_app_l by (by rewrite length_map).
        rewrite list_lookup_fmap, Hj. simpl.
        rewrite written_cells_as_read. by apply Hkept.
      * rewrite lookup_app_r in Hj by lia.
        rewrite lookup_app_r by (rewrite length_map; lia). rewrite length_map.
        destruct (j - length others)%nat as [|i]; simpl in *.
        -- injection Hj as <-. rewrite written_cells_updated.
           rewrite !lookup_insert_ne by done. by apply Hkept.
        -- rewrite list_lookup_fmap, Hj. simpl.
           rewrite written_cells_as_read. by apply Hkept.
  - destruct H as (_ & r & _ & ->). split.
    + rewrite length_map, length_app, length_map. simpl. lia.
    + intros j row k Hj Hk Hno Htv.
      rewrite map_app, map_map.
      rewrite lookup_app_l by (rewrite length_map; by eapply lookup_lt_Some).
      rewrite list_lookup_fmap, Hj. simpl.
      rewrite written_cells_as_read. by apply Hkept.
Qed.

(** X20: Identifiers stay unique: when every row has an id, no two rows share
    one and the card's id is a text, a successful call leaves a ledger in
    which no two rows share an id. *)
Theorem add_card_data_to_csv_unique_ids
    (http_json : string → result pyval)
    (fs : gmap string (list (gmap string string)))
    (file_path top_result_id : string) (card_data : pyval) (cid : string) :
  well_formed (read_rows fs file_path) →
  NoDup (ids (read_rows fs file_path)) →
  get_card_details http_json top_result_id = Ok card_data →
  getitem card_data "id" = Ok (PStr cid) →
  (add_card_data_to_csv repr http_json fs file_path top_result_id).2 = Ok () →
  NoDup (ids (read_rows
                (add_card_data_to_csv repr http_json fs file_path top_result_id).1
                file_path)).
Proof.
  intros Hwf Hnd Hget Hcid Hadd.
  assert (Hd : Forall (λ r, dom r ⊆ list_to_set fieldnames) (read_rows fs file_path)).
  { eapply Forall_impl; [exact Hwf|]. by intros r [_ ?]. }
  destruct (add_card_data_to_csv_cases repr http_json fs file_path top_result_id Hd)
    as [[e He]|(cd & rows' & Hget' & Hrec & Hok)]; [by rewrite He in Hadd|].
  rewrite Hok. clear Hadd Hok. cbn [fst].
  rewrite Hget in Hget'. injection Hget' as <-.
  assert (Hnew : read_rows (<[file_path := map (written_cells repr) rows']> fs) file_path
                 = map (written_cells repr) rows')
    by (unfold read_rows; by rewrite lookup_insert_eq).
  rewrite Hnew. clear Hnew.
  set (rows := read_rows fs file_path) in *.
  assert (Hsame : ∀ l : list (gmap string string),
             ids (map (written_cells repr) (map as_read l)) = ids l).
  { intros l. unfold ids. rewrite !map_map. apply map_ext. intros r.
    by rewrite written_cells_as_read. }
  apply reconcile_inv in Hrec as (c & p & Hc & _ & [H|H]).
  - destruct H as (others & row0 & rest & rid & owned & n & t
                   & Hrows & _ & _ & _ & _ & _ & _ & ->).
    rewrite Hrows in Hnd.
    rewrite map_app, map_cons. unfold ids in *.
    rewrite map_app, map_cons in Hnd. rewrite map_app, map_cons.
    fold (ids (map (written_cells repr) (map as_read others))).
    fold (ids (map (written_cells repr) (map as_read rest))).
    rewrite !Hsame. rewrite written_cells_updated.
    rewrite !lookup_insert_ne by done. exact Hnd.
  - destruct H as (Hno & r & Hr & ->).
    destruct (extract_fields_not_dict _ _ Hc) as [card ->].
    apply extract_fields_dict in Hc as (Hid & _).
    cbn [getitem] in Hcid. rewrite Hid in Hcid. injection Hcid as Hcid.
    unfold new_row in Hr. destruct (py_float (cf_price c)); [|done].
    cbn [mbind result_bind] in Hr. injection Hr as <-.
    rewrite map_app. unfold ids in *. rewrite map_app.
    fold (ids (map (written_cells repr) (map as_read rows))).
    rewrite Hsame. cbn [map]. rewrite written_cells_lookup by (repeat constructor).
    change ((list_to_map _ : gmap string pyval) !! "id") with (Some (cf_id c)).
    rewrite Hcid. cbn [default cell_text].
    apply NoDup_app. split; [exact Hnd|]. split; [|apply NoDup_singleton].
    intros x Hx Hin. apply list_elem_of_singleton in Hin as ->.
    apply list_elem_of_fmap in Hx as (r & Hx & Hr).
    rewrite Forall_forall in Hno. destruct (Hno r Hr) as (rid & Hrid & Hne).
    rewrite Hrid in Hx. simpl in Hx. subst rid.
    rewrite Hcid in Hne. cbn [cell_eq] in Hne. by rewrite String.eqb_refl in Hne.
Qed.

(** X21: An answer of the service that has no id (the error object it sends
    for a card it does not know) raises [KeyError] before the ledger is
    opened for writing. *)
Theorem add_card_data_to_csv_answer_without_id
    (http_json : string → result pyval)
    (fs : gmap string (list (gmap string string)))
    (file_path top_result_id : string) (answer : gmap string pyval) :
  get_card_details http_json top_result_id = Ok (PDict answer) →
  answer !! "id" = None →
  add_card_data_to_csv repr http_json fs file_path top_result_id
  = (fs, Raise (KeyError "id")).
Proof.
  intros Hget Hid. unfold add_card_data_to_csv. rewrite Hget.
  cbn [mbind result_bind]. unfold reconcile, extract_fields.
  cbn [getitem]. rewrite Hid. reflexivity.
Qed.

(** X22: A row of the card whose counter is not an integer text stops the call
    with [ValueError]; the ledger is left as it was. *)
Theorem add_card_data_to_csv_unreadable_counter
    (http_json : string → result pyval)
    (fs : gmap string (list (gmap string string)))
    (file_path top_result_id : string) (card_data : pyval) (c : card_fields)
    (others rest : list (gmap string string)) (row : gmap string string)
    (rid owned : string) :
  read_rows fs file_path = others ++ row :: rest →
  get_card_details http_json top_result_id = Ok card_data →
  extract_fields card_data = Ok c →
  Forall (λ r, ∃ rid, r !! "id" = Some rid ∧ cell_eq rid (cf_id c) = false) others →
  row !! "id" = Some rid → cell_eq rid (cf_id c) = true →
  row !! "number_owned" = Some owned →
  int_of_str owned = None →
  add_card_data_to_csv repr http_json fs file_path top_result_id
  = (fs, Raise ValueError).
Proof.
  intros Hread Hget Hc Ho Hid Heq Hown Hint. unfold add_card_data_to_csv.
  rewrite Hget, Hread. cbn [mbind result_bind]. unfold reconcile.
  rewrite Hc. cbn [mbind result_bind].
  rewrite update_existing_app by done. cbn [update_existing].
  rewrite Hid. cbn [of_option mbind result_bind]. rewrite Heq, Hown.
  cbn [of_option mbind result_bind py_int]. rewrite Hint. reflexivity.
Qed.

End LedgerProperties.

Lemma add_card_data_to_csv_all_or_nothing_witness :
  (add_card_data_to_csv (RT := decimal_runtime) kind_repr
     (service repriced_card) disk catalog_path "zz").1 = disk.
Proof.
  apply (add_card_data_to_csv_all_or_nothing (RT := decimal_runtime) kind_repr
           (service repriced_card) disk catalog_path "zz"
           (ServiceError "not found")).
  - repeat constructor. refine (bool_decide_unpack _ _). vm_compute. exact I.
  - reflexivity.
Defined.

Lemma add_card_data_to_csv_foreign_column_witness :
  add_card_data_to_csv (RT := decimal_runtime) kind_repr
    (service repriced_card) {[ catalog_path := annotated_ledger ]} catalog_path "c1"
  = (<[catalog_path := []]> {[ catalog_path := annotated_ledger ]}, Raise ValueError).
Proof.
  eapply (add_card_data_to_csv_foreign_column (RT := decimal_runtime) kind_repr
            (service repriced_card) {[ catalog_path := annotated_ledger ]}
            catalog_path "c1" repriced_card).
  - reflexivity.
  - refine (bool_decide_unpack _ _). vm_compute. exact I.
  - reflexivity.
  - reflexivity.
Defined.

Lemma add_card_data_to_csv_keeps_rows_witness :
  let fs' := (add_card_data_to_csv (RT := decimal_runtime) kind_repr
                (service repriced_card) disk catalog_path "c1").1 in
  (length (read_rows disk catalog_path) ≤ length (read_rows fs' catalog_path)
   ≤ S (length (read_rows disk catalog_path)))%nat
  ∧ ∀ j row k,
      read_rows disk catalog_path !! j = Some row →
      k ∈ fieldnames → k ≠ "number_owned" → k ≠ "total_value" →
      read_rows fs' catalog_path !! j ≫= (λ r, r !! k) = Some (default "" (row !! k)).
Proof.
  apply (add_card_data_to_csv_keeps_rows (RT := decimal_runtime) kind_repr
           (service repriced_card) disk catalog_path "c1").
  - repeat constructor. refine (bool_decide_unpack _ _). vm_compute. exact I.
  - reflexivity.
Defined.

Lemma add_card_data_to_csv_unique_ids_witness :
  NoDup (ids (read_rows
                (add_card_data_to_csv (RT := decimal_runtime) kind_repr
                   two_card_service disk catalog_path "c2").1
                catalog_path)).
Proof.
  apply (add_card_data_to_csv_unique_ids (RT := decimal_runtime) kind_repr
           two_card_service disk catalog_path "c2" (PDict second) "c2").
  - repeat constructor.
    + by eexists.
    + refine (bool_decide_unpack _ _). vm_compute. exact I.
  - repeat constructor. intros H. by apply elem_of_nil in H.
  - reflexivity.
  - reflexivity.
  - reflexivity.
Defined.

Lemma add_card_data_to_csv_answer_without_id_witness :
  add_card_data_to_csv (RT := decimal_runtime) kind_repr
    (λ _, Ok (PDict {[ "object" := PStr "error" ]})) disk catalog_path "zz"
  = (disk, Raise (KeyError "id")).
Proof.
  apply (add_card_data_to_csv_answer_without_id (RT := decimal_runtime) kind_repr
           (λ _, Ok (PDict {[ "object" := PStr "error" ]})) disk catalog_path "zz"
           {[ "object" := PStr "error" ]}).
  - reflexivity.
  - reflexivity.
Defined.

Lemma add_card_data_to_csv_unreadable_counter_witness :
  add_card_data_to_csv (RT := decimal_runtime) kind_repr
    (service repriced_card)
    {[ catalog_path := map (insert "number_owned" "1.0") stale_ledger ]}
    catalog_path "c1"
  = ({[ catalog_path := map (insert "number_owned" "1.0") stale_ledger ]},
     Raise ValueError).
Proof.
  eapply (add_card_data_to_csv_unreadable_counter (RT := decimal_runtime) kind_repr
            (service repriced_card)
            {[ catalog_path := map (insert "number_owned" "1.0") stale_ledger ]}
            catalog_path "c1" repriced_card _ [] [] _ "c1" "1.0").
  - reflexivity.
  - reflexivity.
  - reflexivity.
  - constructor.
  - reflexivity.
  - reflexivity.
  - reflexivity.
  - reflexivity.
Defined.

(** ** The ledger over several calls *)
Section LedgerSteps.
Context {RT : Runtime}.
Variable repr : pyval → string.

Lemma card_cells_id (card : gmap string pyval) (cid tl owned : string) (t : float) :
  card !! "id" = Some (PStr cid) →
  card_cells repr card tl owned t !! "id" = Some cid.
Proof.
  intros Hid. unfold card_cells, card_field. rewrite Hid. reflexivity.
Qed.

Lemma dom_card_cells (card : gmap string pyval) (tl owned : string) (t : float) :
  dom (card_cells repr card tl owned t) ⊆ list_to_set fieldnames.
Proof. refine (bool_decide_unpack _ _). vm_compute. exact I. Qed.

Lemma rewritten_card_cells (card : gmap string pyval) (tl owned : string) (t : float) :
  rewritten (card_cells repr card tl owned t) = card_cells repr card tl owned t.
Proof. reflexivity. Qed.

Lemma kept_rows (rows : list (gmap string string)) (cid : string) :
  Forall (λ r, (∃ rid, r !! "id" = Some rid ∧ rid ≠ cid)
               ∧ dom r ⊆ list_to_set fieldnames) rows →
  Forall (λ r, (∃ rid, r !! "id" = Some rid ∧ rid ≠ cid)
               ∧ dom r ⊆ list_to_set fieldnames) (map rewritten rows).
Proof.
  intros H. apply Forall_fmap. eapply Forall_impl; [exact H|].
  intros r [(rid & Hr & Hne) _]. split; [|apply dom_rewritten].
  exists rid. split; [|done].
  change (rewritten r !! "id") with (Some (default "" (r !! "id"))).
  by rewrite Hr.
Qed.

(** A card the ledger does not hold gets a row of its own at the end. *)
Lemma add_card_data_to_csv_new_card (http_json : string → result pyval)
    (fs : gmap string (list (gmap string string)))
    (file_path top_result_id : string)
    (card : gmap string pyval) (cid type_line : string) (p : float) :
  Forall (λ r, (∃ rid, r !! "id" = Some rid ∧ rid ≠ cid)
               ∧ dom r ⊆ list_to_set fieldnames)
    (read_rows fs file_path) →
  get_card_details http_json top_result_id = Ok (PDict card) →
  card !! "id" = Some (PStr cid) →
  is_Some (card !! "name") →
  card_field card (PStr "") "type_line" = PStr type_line →
  py_float (card_price card) = Ok p →
  add_card_data_to_csv repr http_json fs file_path top_result_id
  = (<[file_path := map rewritten (read_rows fs file_path)
                      ++ [card_cells repr card (replace type_line "—" "-") "1" p]]> fs,
     Ok ()).
Proof.
  intros Hrows Hget Hid Hname Htl Hp.
  set (rows := read_rows fs file_path) in *.
  assert (Hids : Forall (λ r, ∃ rid, r !! "id" = Some rid
                                     ∧ cell_eq rid (PStr cid) = false) rows).
  { eapply Forall_impl; [exact Hrows|]. intros r [(rid & Hr & Hne) _].
    exists rid. split; [done|]. by apply String.eqb_neq. }
  assert (Hdoms : Forall (λ r, dom r ⊆ list_to_set fieldnames) rows).
  { eapply Forall_impl; [exact Hrows|]. by intros r [_ ?]. }
  destruct (card_price_dict card p Hp) as [d Hd].
  pose proof (extract_fields_card card type_line d ltac:(by eexists) Hname Htl Hd) as Hc.
  assert (Hcid : card_field card PNone "id" = PStr cid)
    by (unfold card_field; by rewrite Hid).
  unfold add_card_data_to_csv. fold rows. rewrite Hget. cbn [mbind result_bind].
  unfold reconcile. rewrite Hc. cbn [mbind result_bind cf_id cf_price].
  rewrite Hcid, update_existing_none by done. cbn [mbind result_bind].
  unfold new_row. cbn [cf_price]. rewrite Hp. cbn [mbind result_bind].
  cbn [cf_id cf_name cf_mana_cost cf_cmc cf_type_line cf_colors
       cf_color_identity cf_set_name cf_rarity cf_full_art cf_price].
  rewrite (writerows_app repr _ _ _ (writerows_as_read repr rows Hdoms)).
  unfold card_cells. rewrite Hcid. reflexivity.
Qed.

(** A card whose row closes the ledger has its counter raised by one and
    its total set to the new count times the price of the day. *)
Lemma add_card_data_to_csv_held_card (http_json : string → result pyval)
    (fs : gmap string (list (gmap string string)))
    (file_path top_result_id : string)
    (card : gmap string pyval) (cid type_line tl : string) (p t f : float)
    (kept : list (gmap string string)) (n : Z) :
  read_rows fs file_path = kept ++ [card_cells repr card tl (str_of_int n) t] →
  Forall (λ r, (∃ rid, r !! "id" = Some rid ∧ rid ≠ cid)
               ∧ dom r ⊆ list_to_set fieldnames) kept →
  get_card_details http_json top_result_id = Ok (PDict card) →
  card !! "id" = Some (PStr cid) →
  is_Some (card !! "name") →
  card_field card (PStr "") "type_line" = PStr type_line →
  py_float (card_price card) = Ok p →
  int_of_str (str_of_int n) = Some n →
  float_of_int (n + 1) = Ok f →
  add_card_data_to_csv repr http_json fs file_path top_result_id
  = (<[file_path := map rewritten kept
                      ++ [card_cells repr card tl (str_of_int (n + 1)) (float_mul f p)]]> fs,
     Ok ()).
Proof.
  intros Hread Hkept Hget Hid Hname Htl Hp Hint Hf.
  assert (Hids : Forall (λ r, ∃ rid, r !! "id" = Some rid
                                     ∧ cell_eq rid (PStr cid) = false) kept).
  { eapply Forall_impl; [exact Hkept|]. intros r [(rid & Hr & Hne) _].
    exists rid. split; [done|]. by apply String.eqb_neq. }
  assert (Hdoms : Forall (λ r, dom r ⊆ list_to_set fieldnames) kept).
  { eapply Forall_impl; [exact Hkept|]. by intros r [_ ?]. }
  destruct (card_price_dict card p Hp) as [d Hd].
  pose proof (extract_fields_card card type_line d ltac:(by eexists) Hname Htl Hd) as Hc.
  assert (Hcid : card_field card PNone "id" = PStr cid)
    by (unfold card_field; by rewrite Hid).
  unfold add_card_data_to_csv. rewrite Hget, Hread. cbn [mbind result_bind].
  unfold reconcile. rewrite Hc. cbn [mbind result_bind cf_id cf_price].
  rewrite Hcid, update_existing_app by done.
  cbn [update_existing]. rewrite (card_cells_id _ cid) by done.
  cbn [of_option mbind result_bind cell_eq]. rewrite String.eqb_refl.
  change (card_cells repr card tl (str_of_int n) t !! "number_owned")
    with (Some (str_of_int n)).
  cbn [of_option mbind result_bind py_int]. rewrite Hint.
  cbn [of_option mbind result_bind]. rewrite Hp. cbn [mbind result_bind].
  unfold int_mul_float. rewrite Hf. cbn [mbind result_bind option_map map].
  rewrite (writerows_app repr _ _ _ (writerows_as_read repr kept Hdoms)).
  cbn [writerows].
  rewrite dict_to_list_written.
  2:{ rewrite !dom_insert_L. unfold as_read. rewrite dom_fmap_L.
      pose proof (dom_card_cells card tl (str_of_int n) t).
      repeat apply union_least; [by apply singleton_subseteq_l..|done]. }
  rewrite written_cells_updated, rewritten_card_cells. reflexivity.
Qed.

(** X23: A card added [k] times in a row, to a ledger that did not hold it:
    one row, at the end, counts [k] copies and totals [k] times the
    price; the rows that were there are kept. *)
Theorem add_card_data_to_csv_times_counts
    (http_json : string → result pyval)
    (fs : gmap string (list (gmap string string)))
    (file_path top_result_id : string)
    (card : gmap string pyval) (cid type_line : string) (p : float) (k : nat) :
  Forall (λ r, (∃ rid, r !! "id" = Some rid ∧ rid ≠ cid)
               ∧ dom r ⊆ list_to_set fieldnames)
    (read_rows fs file_path) →
  get_card_details http_json top_result_id = Ok (PDict card) →
  card !! "id" = Some (PStr cid) →
  is_Some (card !! "name") →
  card_field card (PStr "") "type_line" = PStr type_line →
  py_float (card_price card) = Ok p →
  (2 ≤ k)%nat →
  (∀ n, 1 ≤ n < Z.of_nat k → int_of_str (str_of_int n) = Some n) →
  (∀ n, 2 ≤ n ≤ Z.of_nat k → ∃ f, float_of_int n = Ok f) →
  ∃ total,
    int_mul_float (Z.of_nat k) p = Ok total
    ∧ add_card_data_to_csv_times repr http_json fs file_path top_result_id k
      = (<[file_path := map rewritten (read_rows fs file_path)
                          ++ [card_cells repr card (replace type_line "—" "-")
                                (str_of_int (Z.of_nat k)) total]]> fs,
         Ok ()).
Proof.
  intros Hrows Hget Hid Hname Htl Hp Hk Hint Hfloat.
  set (tl := replace type_line "—" "-").
  set (kept := map rewritten (read_rows fs file_path)).
  assert (Hinv : ∀ j, (1 ≤ j ≤ k)%nat →
            ∃ t, (j = 1%nat ∧ t = p ∨ int_mul_float (Z.of_nat j) p = Ok t)
                 ∧ add_card_data_to_csv_times repr http_json fs file_path top_result_id j
                   = (<[file_path := kept ++ [card_cells repr card tl
                                                (str_of_int (Z.of_nat j)) t]]> fs,
                      Ok ())).
  { induction j as [|j IH]; intros Hj; [lia|].
    destruct (decide (j = 0%nat)) as [->|Hj0].
    - exists p. split; [by left|]. cbn [add_card_data_to_csv_times].
      by apply add_card_data_to_csv_new_card with (cid := cid).
    - destruct IH as (t & _ & IH); [lia|].
      destruct (Hfloat (Z.of_nat j + 1)) as [f Hf]; [lia|].
      exists (float_mul f p). split.
      { right. unfold int_mul_float.
        replace (Z.of_nat (S j)) with (Z.of_nat j + 1) by lia. by rewrite Hf. }
      cbn [add_card_data_to_csv_times]. rewrite IH.
      rewrite (add_card_data_to_csv_held_card http_json _ file_path top_result_id
                 card cid type_line tl p t f kept (Z.of_nat j)); try done.
      + assert (Hsame : map rewritten kept = kept).
        { unfold kept. rewrite map_map. apply map_ext. intros r.
          apply rewritten_idemp. }
        rewrite insert_insert_eq, Hsame.
        by replace (Z.of_nat (S j)) with (Z.of_nat j + 1) by lia.
      + unfold read_rows. by rewrite lookup_insert_eq.
      + by apply kept_rows.
      + apply Hint. lia. }
  destruct (Hinv k) as (t & [[-> _]|Ht] & Hrun); [lia|lia|].
  exists t. by split.
Qed.

(** X24: Two different cards added one after the other, to a ledger that
    holds neither: each gets a row, in the order of the calls, and the
    second call leaves the row of the first as the first wrote it. *)
Theorem add_card_data_to_csv_two_cards
    (http_json : string → result pyval)
    (fs : gmap string (list (gmap string string)))
    (file_path first_id second_id : string)
    (card1 card2 : gmap string pyval)
    (cid1 cid2 type_line1 type_line2 : string) (p1 p2 : float) :
  Forall (λ r, (∃ rid, r !! "id" = Some rid ∧ rid ≠ cid1 ∧ rid ≠ cid2)
               ∧ dom r ⊆ list_to_set fieldnames)
    (read_rows fs file_path) →
  cid1 ≠ cid2 →
  get_card_details http_json first_id = Ok (PDict card1) →
  card1 !! "id" = Some (PStr cid1) →
  is_Some (card1 !! "name") →
  card_field card1 (PStr "") "type_line" = PStr type_line1 →
  py_float (card_price card1) = Ok p1 →
  get_card_details http_json second_id = Ok (PDict card2) →
  card2 !! "id" = Some (PStr cid2) →
  is_Some (card2 !! "name") →
  card_field card2 (PStr "") "type_line" = PStr type_line2 →
  py_float (card_price card2) = Ok p2 →
  add_card_data_to_csv repr http_json
    (add_card_data_to_csv repr http_json fs file_path first_id).1
    file_path second_id
  = (<[file_path := map rewritten (read_rows fs file_path)
                      ++ [card_cells repr card1 (replace type_line1 "—" "-") "1" p1;
                          card_cells repr card2 (replace type_line2 "—" "-") "1" p2]]> fs,
     Ok ()).
Proof.
  intros Hrows Hne Hget1 Hid1 Hname1 Htl1 Hp1 Hget2 Hid2 Hname2 Htl2 Hp2.
  assert (Hrows1 : Forall (λ r, (∃ rid, r !! "id" = Some rid ∧ rid ≠ cid1)
                                ∧ dom r ⊆ list_to_set fieldnames)
                     (read_rows fs file_path)).
  { eapply Forall_impl; [exact Hrows|]. intros r [(rid & ? & ? & ?) ?]. eauto. }
  assert (Hrows2 : Forall (λ r, (∃ rid, r !! "id" = Some rid ∧ rid ≠ cid2)
                                ∧ dom r ⊆ list_to_set fieldnames)
                     (read_rows fs file_path)).
  { eapply Forall_impl; [exact Hrows|]. intros r [(rid & ? & ? & ?) ?]. eauto. }
  rewrite (add_card_data_to_csv_new_card http_json fs file_path first_id
             card1 cid1 type_line1 p1) by done.
  cbn [fst].
  set (row1 := card_cells repr card1 (replace type_line1 "—" "-") "1" p1).
  assert (Hread : read_rows (<[file_path := map rewritten (read_rows fs file_path) ++ [row1]]> fs)
                    file_path
                  = map rewritten (read_rows fs file_path) ++ [row1])
    by (unfold read_rows; by rewrite lookup_insert_eq).
  rewrite (add_card_data_to_csv_new_card http_json _ file_path second_id
             card2 cid2 type_line2 p2); try done.
  - assert (Hk : map rewritten (map rewritten (read_rows fs file_path))
                 = map rewritten (read_rows fs file_path)).
    { rewrite map_map. apply map_ext. intros r. apply rewritten_idemp. }
    rewrite Hread, insert_insert_eq, map_app, Hk. cbn [map].
    unfold row1. by rewrite rewritten_card_cells, <- app_assoc.
  - rewrite Hread. apply Forall_app. split; [by apply kept_rows|].
    apply Forall_cons. split; [|constructor]. split; [|apply dom_card_cells].
    exists cid1. split; [by apply card_cells_id|done].
Qed.

End LedgerSteps.

Lemma add_card_data_to_csv_times_counts_witness :
  ∃ total,
    int_mul_float 3 (S754_finite false 4503599627370496 (-51)) = Ok total
    ∧ add_card_data_to_csv_times (RT := decimal_runtime) kind_repr
        (service repriced_card) {[ catalog_path := other_ledger ]} catalog_path "c1" 3
      = (<[catalog_path :=
             map rewritten (read_rows {[ catalog_path := other_ledger ]} catalog_path)
               ++ [card_cells kind_repr repriced
                     (replace "Artifact — Equipment" "—" "-") (str_of_int 3) total]]>
           {[ catalog_path := other_ledger ]},
         Ok ()).
Proof.
  apply (add_card_data_to_csv_times_counts (RT := decimal_runtime) kind_repr
           (service repriced_card) {[ catalog_path := other_ledger ]} catalog_path "c1"
           repriced "c1" "Artifact — Equipment"
           (S754_finite false 4503599627370496 (-51)) 3).
  - repeat constructor.
    + exists "c0"%string. split; [reflexivity|discriminate].
    + refine (bool_decide_unpack _ _). vm_compute. exact I.
  - reflexivity.
  - reflexivity.
  - eexists. reflexivity.
  - reflexivity.
  - reflexivity.
  - lia.
  - intros n Hn. assert (n = 1 ∨ n = 2) as [-> | ->] by lia; reflexivity.
  - intros n Hn. assert (n = 2 ∨ n = 3) as [-> | ->] by lia; eexists; reflexivity.
Defined.

Lemma add_card_data_to_csv_two_cards_witness :
  add_card_data_to_csv (RT := decimal_runtime) kind_repr two_card_service
    (add_card_data_to_csv (RT := decimal_runtime) kind_repr two_card_service
       {[ catalog_path := other_ledger ]} catalog_path "c1").1
    catalog_path "c2"
  = (<[catalog_path :=
         map rewritten (read_rows {[ catalog_path := other_ledger ]} catalog_path)
           ++ [card_cells kind_repr repriced
                 (replace "Artifact — Equipment" "—" "-") "1"
                 (S754_finite false 4503599627370496 (-51));
               card_cells kind_repr second
                 (replace "Basic Land — Island" "—" "-") "1"
                 (S754_finite false 4503599627370496 (-54))]]>
       {[ catalog_path := other_ledger ]},
     Ok ()).
Proof.
  apply (add_card_data_to_csv_two_cards (RT := decimal_runtime) kind_repr
           two_card_service {[ catalog_path := other_ledger ]} catalog_path "c1" "c2"
           repriced second "c1" "c2" "Artifact — Equipment" "Basic Land — Island"
           (S754_finite false 4503599627370496 (-51))
           (S754_finite false 4503599627370496 (-54))).
  - repeat constructor.
    + exists "c0"%string. split; [reflexivity|]. split; discriminate.
    + refine (bool_decide_unpack _ _). vm_compute. exact I.
  - discriminate.
  - reflexivity.
  - reflexivity.
  - eexists. reflexivity.
  - reflexivity.
  - reflexivity.
  - reflexivity.
  - reflexivity.
  - eexists. reflexivity.
  - reflexivity.
  - reflexivity.
Defined.

(** ** The type line *)

Lemma replace_em_dash_free (s : string) :
  em_dash_free s → replace s "—" "-" = s.
Proof.
  unfold em_dash_free, replace.
  induction s as [|c s IH]; intros H; [reflexivity|].
  cbn [list_ascii_of_string] in H. apply Forall_cons in H as [Hc Hs].
  cbn [replace_from].
  assert (Hp : String.prefix "—" (String c s) = false).
  { cbn [String.prefix]. destruct (ascii_dec _ c) as [<-|]; [|reflexivity].
    by destruct Hc. }
  rewrite Hp, IH by done. reflexivity.
Qed.

(** X25: A type line without an em dash is taken as the service gives it. *)
Theorem extract_fields_plain_type_line (card : gmap string pyval)
    (c : card_fields) (type_line : string) :
  extract_fields (PDict card) = Ok c →
  card_field card (PStr "") "type_line" = PStr type_line →
  em_dash_free type_line →
  cf_type_line c = type_line.
Proof.
  intros Hc Htl Hfree.
  apply extract_fields_dict in Hc as (_ & _ & _ & _ & Hrep & _).
  rewrite Htl in Hrep. cbn [replace_em_dash] in Hrep.
  rewrite replace_em_dash_free in Hrep by done. by injection Hrep.
Qed.

Lemma extract_fields_plain_type_line_witness :
  ∃ c, extract_fields (PDict (<["type_line" := PStr "Instant"]> second)) = Ok c
       ∧ cf_type_line c = "Instant"%string.
Proof.
  eexists. split; [reflexivity|].
  apply (extract_fields_plain_type_line (<["type_line" := PStr "Instant"]> second)
           _ "Instant").
  - reflexivity.
  - reflexivity.
  - unfold em_dash_free. cbn [list_ascii_of_string].
    repeat (apply Forall_cons; split; [discriminate|]). constructor.
Defined.

(** ** The index of the setup cell *)

(** X26: The setup cell never touches an index that exists: whatever the
    service lists keeps its configuration, the index of the notebook
    included, even with a dimension other than that of the model. *)
Theorem ensure_index_keeps_existing (service : gmap string index_config)
    (name : string) (cfg : index_config) :
  service !! name = Some cfg →
  ensure_index service !! name = Some cfg.
Proof.
  intros H. unfold ensure_index.
  destruct (decide (index_name ∈ dom service)) as [|Hno]; [done|].
  rewrite lookup_insert_ne; [done|]. intros <-.
  apply Hno, elem_of_dom. by eexists.
Qed.

Lemma ensure_index_keeps_existing_witness :
  ensure_index {[ index_name := {| dimension := 512; metric := "euclidean";
                                   cloud := "gcp"; region := "us-central1" |} ]}
    !! index_name
  = Some {| dimension := 512; metric := "euclidean";
            cloud := "gcp"; region := "us-central1" |}.
Proof.
  apply (ensure_index_keeps_existing
           {[ index_name := {| dimension := 512; metric := "euclidean";
                               cloud := "gcp"; region := "us-central1" |} ]}
           index_name).
  reflexivity.
Defined.

(** X27: Running the setup cell again changes nothing, and after it the index
    of the notebook exists. *)
Theorem ensure_index_idempotent (service : gmap string index_config) :
  index_name ∈ dom (ensure_index service)
  ∧ ensure_index (ensure_index service) = ensure_index service.
Proof.
  assert (H : index_name ∈ dom (ensure_index service)).
  { unfold ensure_index.
    destruct (decide (index_name ∈ dom service)); [done|].
    rewrite dom_insert_L. apply elem_of_union_l, elem_of_singleton. reflexivity. }
  split; [exact H|].
  unfold ensure_index at 1. by rewrite decide_True.
Qed.
